(** * Mobile Plan Recommender: a shallow embedding of [mobile_plan_recommender.py]

    The development follows the source file: the plan loader
    ([load_plans]), the cost engine ([cost_for_usage]), the SQLite usage
    store ([init_db], [save_usage], [load_usage], [show_stats]), the cost
    listing and the recommendation scan ([display_plan_costs],
    [recommend_best_plan]), the input helpers ([input_int], [input_float],
    [input_yes_no]) and the menu loop of [main].

    Modelling conventions.
    - A Python [int] is a [Z] (unbounded).  A Python [float] is idealised
      as an exact rational [Q]: binary rounding, infinities and NaN are
      outside the model, and "equal" on costs is numeric equality [==].
      The one range effect kept is the [OverflowError] of [float] on an
      integer too large for a double, because the loader does not catch it.
      [cost_for_usage] is a total function here; the same [OverflowError]
      of its product of overage minutes and a float rate is excluded by
      the precondition [overage_in_range] where a statement says that the
      listing or the recommendation returns.  A NaN typed at the data
      prompt, which [input_float] lets through and the NOT NULL column
      refuses, has no counterpart among the rationals.
    - A Python [str] is a [string]; each character is a code point below 256.
    - A Python [dict] is an association list in insertion order with
      pairwise distinct keys; assigning to an existing key replaces the
      value in place and keeps the key's position.
    - Exceptions are values of [exn]; code that can raise returns a [result].
    - [print] is modelled by the list of signals or by the outcome it shows.
    - Standard input is the list of lines still unread; [input] at the end
      of that list ends the action with [EndOfInput], Python's [EOFError].
      The clock of the database is a function from the number of the row
      being inserted to its timestamp.
    - The text behaviour of the builtins [int], [float] and [str] (number
      grammar, [repr] of numbers and containers) is a parameter, the class
      [Builtins]; every theorem holds for all instances. *)

From Stdlib Require Import ZArith QArith Qminmax List String Ascii Bool Lia Lqa.
From Stdlib Require Import Decimal DecimalString.
Import ListNotations.

Local Open Scope string_scope.
Local Open Scope list_scope.
Local Open Scope Z_scope.

(** ** Python values, exceptions, results *)

(** What [json.load] can return. *)
#[warnings="-register-all"]
Inductive value : Type :=
| VNone
| VBool (b : bool)
| VInt (n : Z)
| VFloat (x : Q)
| VStr (s : string)
| VList (items : list value)
| VDict (members : list (string * value)).

Inductive exn : Type :=
| KeyError (key : string)
| ValueError
| TypeError
| AttributeError
| OverflowError
| IntegrityError
| ZeroDivisionError
| UnicodeDecodeError
| PermissionError
| IsADirectoryError.

Inductive result (A : Type) : Type :=
| Ok (a : A)
| Raise (e : exn).

Arguments Ok {A} a.
Arguments Raise {A} e.

Definition bind {A B : Type} (r : result A) (k : A -> result B) : result B :=
  match r with
  | Ok a => k a
  | Raise e => Raise e
  end.

Notation "x <- r ;; k" := (bind r (fun x => k))
  (at level 61, r at next level, right associativity).

(** ** Insertion-ordered dictionaries *)

Definition dict (V : Type) : Type := list (string * V).

Fixpoint dict_get {V : Type} (k : string) (d : dict V) : option V :=
  match d with
  | [] => None
  | (k', v) :: d' => if String.eqb k k' then Some v else dict_get k d'
  end.

(** [d[k] = v]: replace in place when the key exists, append otherwise. *)
Fixpoint dict_set {V : Type} (k : string) (v : V) (d : dict V) : dict V :=
  match d with
  | [] => [(k, v)]
  | (k', v') :: d' =>
      if String.eqb k k' then (k, v) :: d' else (k', v') :: dict_set k v d'
  end.

Definition keys {V : Type} (d : dict V) : list string := map fst d.

(** ** Builtins *)

Class Builtins : Type := {
  (** [int(s)] on a string; [None] stands for [ValueError]. *)
  int_of_text : string -> option Z;
  (** [float(s)] on a string; [None] stands for [ValueError]. *)
  float_of_text : string -> option Q;
  (** [str(v)] on a value that is not already a string. *)
  text_of : value -> string
}.

(** Characters removed by [str.strip()]: tab to carriage return, the four
    separators 0x1c-0x1f, space, NEL and no-break space. *)
Definition isspace (c : ascii) : bool :=
  let n := N_of_ascii c in
  (((9 <=? n) && (n <=? 13)) || ((28 <=? n) && (n <=? 32))
   || (n =? 133) || (n =? 160))%N.

Fixpoint lstrip (s : string) : string :=
  match s with
  | EmptyString => EmptyString
  | String c s' => if isspace c then lstrip s' else s
  end.

Fixpoint rstrip (s : string) : string :=
  match s with
  | EmptyString => EmptyString
  | String c s' =>
      match rstrip s' with
      | EmptyString => if isspace c then EmptyString else String c EmptyString
      | t => String c t
      end
  end.

Definition strip (s : string) : string := rstrip (lstrip s).

(** Truncation toward zero, as [int(x)] does on a float. *)
Definition Qtrunc (x : Q) : Z := Z.quot (Qnum x) (Zpos (Qden x)).

(** [float(n)] raises [OverflowError] on an int that rounds beyond the
    largest double: from this magnitude on. *)
Definition float_int_limit : Z := 2 ^ 1024 - 2 ^ 970.

(** [a < b] on floats. *)
Definition Qltb (a b : Q) : bool := negb (Qle_bool b a).

Section Coercions.
Context `{Builtins}.

Definition py_str (v : value) : string :=
  match v with
  | VStr s => s
  | _ => text_of v
  end.

Definition py_int (v : value) : result Z :=
  match v with
  | VInt n => Ok n
  | VBool b => Ok (if b then 1 else 0)
  | VFloat x => Ok (Qtrunc x)
  | VStr s =>
      match int_of_text s with
      | Some n => Ok n
      | None => Raise ValueError
      end
  | VNone | VList _ | VDict _ => Raise TypeError
  end.

Definition py_float (v : value) : result Q :=
  match v with
  | VInt n =>
      if Z.abs n <? float_int_limit then Ok (inject_Z n)
      else Raise OverflowError
  | VBool b => Ok (if b then 1%Q else 0%Q)
  | VFloat x => Ok x
  | VStr s =>
      match float_of_text s with
      | Some x => Ok x
      | None => Raise ValueError
      end
  | VNone | VList _ | VDict _ => Raise TypeError
  end.
End Coercions.

(** Truthiness, [bool(v)]: never raises. *)
Definition py_bool (v : value) : bool :=
  match v with
  | VNone => false
  | VBool b => b
  | VInt n => negb (n =? 0)
  | VFloat x => negb (Qeq_bool x 0)
  | VStr s => negb (String.eqb s "")
  | VList items => match items with [] => false | _ :: _ => true end
  | VDict members => match members with [] => false | _ :: _ => true end
  end.

(** [item[k]] with a string key. *)
Definition getitem (item : value) (k : string) : result value :=
  match item with
  | VDict members =>
      match dict_get k members with
      | Some v => Ok v
      | None => Raise (KeyError k)
      end
  | _ => Raise TypeError
  end.

(** [data.get(k, default)]: only a dict has the method. *)
Definition get_default (data : value) (k : string) (default : value)
  : result value :=
  match data with
  | VDict members =>
      Ok (match dict_get k members with Some v => v | None => default end)
  | _ => Raise AttributeError
  end.

(** The sequence a [for] loop walks over. *)
Definition iterate (v : value) : result (list value) :=
  match v with
  | VList items => Ok items
  | VStr s => Ok (map (fun c => VStr (String c EmptyString)) (list_ascii_of_string s))
  | VDict members => Ok (map (fun kv => VStr (fst kv)) members)
  | VNone | VBool _ | VInt _ | VFloat _ => Raise TypeError
  end.

(** ** Plans *)

Record plan : Type := {
  provider : string;
  plan_name : string;
  base_cost : Q;
  included_minutes : Z;
  included_data_gb : Q;
  cost_per_minute : Q;
  cost_per_gb : Q;
  roaming_included : bool
}.

Inductive signal : Type :=
| WarnNotFound (path : string)
| ErrorParse (path : string) (detail : string)
| WarnSkip (item : value) (reason : exn)
| NoteFewerThanFive.

(** What [open] and [json.load] produced for the path: [Missing] is
    [FileNotFoundError], [Malformed] is [JSONDecodeError], [Unreadable] is
    any other exception they raise (a file that is not UTF-8, that may not
    be read, that is a directory), [Document] is the value parsed. *)
Inductive source : Type :=
| Missing
| Malformed (detail : string)
| Unreadable (e : exn)
| Document (data : value).

(** The clause [except (KeyError, ValueError, TypeError)];
    [UnicodeDecodeError] is a [ValueError]. *)
Definition caught (e : exn) : bool :=
  match e with
  | KeyError _ | ValueError | TypeError | UnicodeDecodeError => true
  | _ => false
  end.

Section Loader.
Context `{Builtins}.

(** The body of the [try] block for one entry: the key and the plan it
    would store, or the first exception raised. *)
Definition read_entry (item : value) : result (string * plan) :=
  v0 <- getitem item "plan_code" ;;
  let code := strip (py_str v0) in
  v1 <- getitem item "provider" ;;
  let provider' := strip (py_str v1) in
  v2 <- getitem item "plan_name" ;;
  let plan_name' := strip (py_str v2) in
  v3 <- getitem item "base_cost" ;;
  base_cost' <- py_float v3 ;;
  v4 <- getitem item "included_minutes" ;;
  included_minutes' <- py_int v4 ;;
  v5 <- getitem item "included_data_gb" ;;
  included_data_gb' <- py_float v5 ;;
  v6 <- getitem item "cost_per_minute" ;;
  cost_per_minute' <- py_float v6 ;;
  v7 <- getitem item "cost_per_gb" ;;
  cost_per_gb' <- py_float v7 ;;
  v8 <- getitem item "roaming_included" ;;
  Ok (code,
      {| provider := provider';
         plan_name := plan_name';
         base_cost := base_cost';
         included_minutes := included_minutes';
         included_data_gb := included_data_gb';
         cost_per_minute := cost_per_minute';
         cost_per_gb := cost_per_gb';
         roaming_included := py_bool v8 |}).

(** The [for item in ...] loop, threading the catalog and the printed
    warnings; an exception outside the [except] clause propagates. *)
Fixpoint load_entries (items : list value) (plans : dict plan)
  (out : list signal) : result (dict plan * list signal) :=
  match items with
  | [] => Ok (plans, out)
  | item :: rest =>
      match read_entry item with
      | Ok (code, p) => load_entries rest (dict_set code p plans) out
      | Raise e =>
          if caught e
          then load_entries rest plans (out ++ [WarnSkip item e])
          else Raise e
      end
  end.

Definition load_plans (path : string) (src : source)
  : result (dict plan * list signal) :=
  match src with
  | Missing => Ok ([], [WarnNotFound path])
  | Malformed detail => Ok ([], [ErrorParse path detail])
  | Unreadable e => Raise e
  | Document data =>
      v <- get_default data "plans" (VList []) ;;
      items <- iterate v ;;
      r <- load_entries items [] [] ;;
      let '(plans, out) := r in
      Ok (plans,
          if (List.length plans <? 5)%nat then out ++ [NoteFewerThanFive] else out)
  end.

(** Vocabulary for statements about a load: the entries the [try] block
    accepts, in order, with the key and plan each stores; the warnings
    printed for the others; an entry whose failure, if any, the [except]
    clause handles. *)
Definition accepted (items : list value) : list (string * plan) :=
  flat_map (fun item =>
              match read_entry item with
              | Ok cp => [cp]
              | Raise _ => []
              end) items.

Definition rejected (items : list value) : list signal :=
  flat_map (fun item =>
              match read_entry item with
              | Ok _ => []
              | Raise e => [WarnSkip item e]
              end) items.

Definition recoverable (item : value) : bool :=
  match read_entry item with
  | Ok _ => true
  | Raise e => caught e
  end.
End Loader.

Definition store_all (entries : list (string * plan)) (plans : dict plan)
  : dict plan :=
  fold_left (fun d cp => dict_set (fst cp) (snd cp) d) entries plans.


Definition set_roaming (p : plan) (b : bool) : plan :=
  {| provider := provider p;
     plan_name := plan_name p;
     base_cost := base_cost p;
     included_minutes := included_minutes p;
     included_data_gb := included_data_gb p;
     cost_per_minute := cost_per_minute p;
     cost_per_gb := cost_per_gb p;
     roaming_included := b |}.

(** ** Cost calculation *)

(** [max(a, b)] on two arguments: [b] when it is greater, else [a]. *)
Definition py_max_Z (a b : Z) : Z := if a <? b then b else a.
Definition py_max_Q (a b : Q) : Q := if Qltb a b then b else a.

Definition cost_for_usage (p : plan) (minutes : Z) (data_gb : Q) : Q :=
  let extra_minutes := py_max_Z 0 (minutes - included_minutes p) in
  let extra_data_gb := py_max_Q 0 (data_gb - included_data_gb p) in
  (base_cost p + inject_Z extra_minutes * cost_per_minute p
   + extra_data_gb * cost_per_gb p)%Q.

(** ** Usage profiles and the recommendation scan *)

Record usage : Type := {
  person_name : string;
  minutes : Z;
  data_gb : Q;
  roaming_required : bool
}.

(** The test that makes the loops skip or flag a plan, negated. *)
Definition eligible (u : usage) (p : plan) : bool :=
  negb (roaming_required u && negb (roaming_included p)).

(** What [recommend_best_plan] prints. *)
Inductive recommendation : Type :=
| EnterUsageFirst
| NoPlansLoaded
| NoPlanMeetsRoaming
| Recommended (code : string) (p : plan) (cost : Q).

(** One pass of the loop body over [(best_code, best_cost)]. *)
Definition scan_step (u : usage) (best : option (string * Q))
  (entry : string * plan) : option (string * Q) :=
  let '(code, p) := entry in
  if roaming_required u && negb (roaming_included p) then best
  else
    let monthly := cost_for_usage p (minutes u) (data_gb u) in
    match best with
    | None => Some (code, monthly)
    | Some (_, best_cost) =>
        if Qltb monthly best_cost then Some (code, monthly) else best
    end.

Definition scan (u : usage) (plans : dict plan) (best : option (string * Q))
  : option (string * Q) :=
  fold_left (scan_step u) plans best.

(** [current] is [None] for the empty dict the session starts with. *)
Definition recommend_best_plan (plans : dict plan) (current : option usage)
  : result recommendation :=
  match current with
  | None => Ok EnterUsageFirst
  | Some u =>
      match plans with
      | [] => Ok NoPlansLoaded
      | _ :: _ =>
          match scan u plans None with
          | None => Ok NoPlanMeetsRoaming
          | Some (best_code, best_cost) =>
              match dict_get best_code plans with
              | Some p => Ok (Recommended best_code p best_cost)
              | None => Raise (KeyError best_code)
              end
          end
      end
  end.

(** The plan a recommendation carries; [None] is the spec's NONE_ELIGIBLE. *)
Definition recommended (r : recommendation) : option (string * plan * Q) :=
  match r with
  | Recommended code p cost => Some (code, p, cost)
  | EnterUsageFirst | NoPlansLoaded | NoPlanMeetsRoaming => None
  end.

(** The loop invariant of the scan, used to state and prove what the
    recommendation returns. *)
Section ScanInvariant.
Variable u : usage.

Definition monthly_cost (p : plan) : Q :=
  cost_for_usage p (minutes u) (data_gb u).

(** What the loop has established after walking a prefix of the catalog. *)
Inductive scanned : dict plan -> option (string * Q) -> Prop :=
| scanned_none (l : dict plan) :
    (forall c p, In (c, p) l -> eligible u p = false) ->
    scanned l None
| scanned_some (before after : dict plan) (code : string) (p : plan) :
    eligible u p = true ->
    (forall c' p', In (c', p') before -> eligible u p' = true ->
                   (monthly_cost p < monthly_cost p')%Q) ->
    (forall c' p', In (c', p') after -> eligible u p' = true ->
                   (monthly_cost p <= monthly_cost p')%Q) ->
    scanned (before ++ (code, p) :: after) (Some (code, monthly_cost p)).
End ScanInvariant.

(** Sample catalog and profiles. *)
Definition saver30 : plan :=
  {| provider := "TelcoX"; plan_name := "Saver 30";
     base_cost := 30; included_minutes := 300; included_data_gb := 10;
     cost_per_minute := 3 # 10; cost_per_gb := 8;
     roaming_included := false |}.

Definition roamer60 : plan :=
  {| provider := "TelcoY"; plan_name := "Roamer 60";
     base_cost := 60; included_minutes := 1000; included_data_gb := 50;
     cost_per_minute := 1 # 10; cost_per_gb := 5;
     roaming_included := true |}.

Definition globe60 : plan :=
  {| provider := "TelcoZ"; plan_name := "Globe 60";
     base_cost := 60; included_minutes := 500; included_data_gb := 20;
     cost_per_minute := 1 # 5; cost_per_gb := 6;
     roaming_included := true |}.

Definition sample_catalog : dict plan :=
  [("S30", saver30); ("R60", roamer60); ("G60", globe60)].

Definition home_only : dict plan := [("S30", saver30)].

Definition home_user : usage :=
  {| person_name := "Ann"; minutes := 250; data_gb := 9 # 2;
     roaming_required := false |}.

Definition traveller : usage :=
  {| person_name := "Bob"; minutes := 250; data_gb := 9 # 2;
     roaming_required := true |}.

(** ** The usage store *)

(** A row of table [usage_details]; [created_at] is CURRENT_TIMESTAMP, in
    whole seconds. *)
Record row : Type := {
  id : Z;
  row_person_name : string;
  row_minutes : Z;
  row_data_gb : Q;
  row_roaming_required : Z;
  created_at : Z
}.

(** The table, in rowid order. *)
Definition db : Type := list row.

(** [CHECK(roaming_required IN (0,1))]. *)
Definition check_roaming (r : row) : bool :=
  (row_roaming_required r =? 0) || (row_roaming_required r =? 1).

(** The sqlite3 module binds a Python int to a signed 64-bit INTEGER. *)
Definition fits_int64 (n : Z) : bool :=
  (- 2 ^ 63 <=? n) && (n <? 2 ^ 63).

(** AUTOINCREMENT: one more than the largest rowid ever used. *)
Definition next_id (t : db) : Z :=
  1 + fold_left Z.max (map id t) 0.

(** [save_usage], with the clock reading [now] the INSERT stamps. *)
Definition save_usage (now : Z) (name : string) (mins : Z) (gb : Q)
  (roaming : bool) (t : db) : result db :=
  if negb (fits_int64 mins) then Raise OverflowError
  else
    let r := {| id := next_id t;
                row_person_name := name;
                row_minutes := mins;
                row_data_gb := gb;
                row_roaming_required := if roaming then 1 else 0;
                created_at := now |} in
    if check_roaming r then Ok (t ++ [r]) else Raise IntegrityError.

(** [ORDER BY created_at DESC LIMIT 1] over the rows in scan order.  SQL
    leaves the order of rows with equal keys open; SQLite keeps the row it
    met first, so a later row replaces the kept one only when its
    [created_at] is strictly greater. *)
Definition newest_step (best : option row) (r : row) : option row :=
  match best with
  | None => Some r
  | Some b => if created_at b <? created_at r then Some r else Some b
  end.

Definition select_latest (name : string) (t : db) : option row :=
  fold_left newest_step
    (filter (fun r => String.eqb (row_person_name r) name) t) None.

Definition load_usage (name : string) (t : db) : option (Z * Q * bool) :=
  match select_latest name t with
  | Some r =>
      Some (row_minutes r, row_data_gb r, negb (row_roaming_required r =? 0))
  | None => None
  end.

(** SQL aggregates; [None] is NULL, the value over zero rows. *)
Definition sql_count (t : db) : Z := Z.of_nat (List.length t).

Definition Qsum (l : list Q) : Q := fold_left Qplus l 0%Q.

Definition sql_avg (l : list Q) : option Q :=
  match l with
  | [] => None
  | _ :: _ => Some (Qsum l / inject_Z (Z.of_nat (List.length l)))%Q
  end.

Definition sql_sum (l : list Z) : option Z :=
  match l with
  | [] => None
  | _ :: _ => Some (fold_left Z.add l 0)
  end.

Definition sql_extreme {A : Type} (pick : A -> A -> A) (l : list A) : option A :=
  match l with
  | [] => None
  | a :: l' => Some (fold_left pick l' a)
  end.

Definition Qmin_of (a b : Q) : Q := if Qltb b a then b else a.
Definition Qmax_of (a b : Q) : Q := if Qltb a b then b else a.

(** [x or d] on a nullable integer. *)
Definition or_else (x : option Z) (d : Z) : Z :=
  match x with
  | Some n => if n =? 0 then d else n
  | None => d
  end.

(** [a / b] on floats. *)
Definition py_div (a b : Q) : result Q :=
  if Qeq_bool b 0 then Raise ZeroDivisionError else Ok (a / b)%Q.

(** Formatting a nullable number with a numeric format specification
    ([.1f], [.2f]): NULL has none. *)
Definition format_num {A : Type} (x : option A) : result A :=
  match x with
  | Some a => Ok a
  | None => Raise TypeError
  end.

Record stats : Type := {
  count : Z;
  avg_minutes : Q;
  avg_data_gb : Q;
  min_minutes : option Z;
  max_minutes : option Z;
  min_data_gb : Q;
  max_data_gb : Q;
  roaming_pct : Q
}.

(** What [show_stats] prints. *)
Inductive stats_report : Type :=
| NoSavedUsage
| Statistics (s : stats).

Definition show_stats (t : db) : result stats_report :=
  let count := sql_count t in
  let avg_min := sql_avg (map (fun r => inject_Z (row_minutes r)) t) in
  let avg_gb := sql_avg (map row_data_gb t) in
  let min_min := sql_extreme Z.min (map row_minutes t) in
  let max_min := sql_extreme Z.max (map row_minutes t) in
  let min_gb := sql_extreme Qmin_of (map row_data_gb t) in
  let max_gb := sql_extreme Qmax_of (map row_data_gb t) in
  let roam_count := sql_sum (map row_roaming_required t) in
  let total := sql_count t in
  if count =? 0 then Ok NoSavedUsage
  else
    pct <- py_div (inject_Z (or_else roam_count 0) * 100)%Q
             (inject_Z (py_max_Z 1 (or_else (Some total) 1))) ;;
    a1 <- format_num avg_min ;;
    a2 <- format_num avg_gb ;;
    g1 <- format_num min_gb ;;
    g2 <- format_num max_gb ;;
    Ok (Statistics {| count := count;
                      avg_minutes := a1;
                      avg_data_gb := a2;
                      min_minutes := min_min;
                      max_minutes := max_min;
                      min_data_gb := g1;
                      max_data_gb := g2;
                      roaming_pct := pct |}).

(** The schema's CHECK constraint holds of every row of a table; the
    number of rows that require roaming. *)
Definition db_ok (t : db) : Prop :=
  Forall (fun r => check_roaming r = true) t.

Definition roaming_rows (t : db) : nat :=
  List.length (filter (fun r => row_roaming_required r =? 1) t).

(** Sample tables: three saves at distinct seconds, and two saves for one
    name within one second. *)
Definition three_saves : result db :=
  t1 <- save_usage 1000 "Ann" 100 (3 # 2) false [] ;;
  t2 <- save_usage 1060 "Bob" 400 12 true t1 ;;
  save_usage 1120 "Ann" 250 (9 # 2) true t2.

Definition table_of (r : result db) : db :=
  match r with
  | Ok t => t
  | Raise _ => []
  end.

Definition same_second_saves : result db :=
  t1 <- save_usage 1000 "Ann" 100 (3 # 2) false [] ;;
  save_usage 1000 "Ann" 250 (9 # 2) true t1.

(** ** A small instance of the builtins and sample data

    [int] and [float] read optionally signed decimal integers surrounded by
    white space; [str] renders [None], booleans and integers.  The text
    behaviour of Python outside this fragment is not needed to run the
    examples. *)

Fixpoint digits_value (s : string) (acc : Z) : option Z :=
  match s with
  | EmptyString => Some acc
  | String c s' =>
      let n := N_of_ascii c in
      if ((48 <=? n) && (n <=? 57))%N
      then digits_value s' (10 * acc + Z.of_N n - 48)
      else None
  end.

Definition int_of_decimal (s : string) : option Z :=
  match strip s with
  | EmptyString => None
  | String "-" (String c t) => option_map Z.opp (digits_value (String c t) 0)
  | String "+" (String c t) => digits_value (String c t) 0
  | t => digits_value t 0
  end.

Definition text_of_simple (v : value) : string :=
  match v with
  | VNone => "None"
  | VBool true => "True"
  | VBool false => "False"
  | VInt n => NilZero.string_of_int (Z.to_int n)
  | VStr s => s
  | VFloat _ | VList _ | VDict _ => "?"
  end.

Definition decimal_builtins : Builtins :=
  {| int_of_text := int_of_decimal;
     float_of_text := fun s => option_map inject_Z (int_of_decimal s);
     text_of := text_of_simple |}.

(** Sample plan documents. *)
Definition entry (code : value) (base : value) (mins : value)
  (roaming : value) : value :=
  VDict [("plan_code", code); ("provider", VStr " TelcoX ");
         ("plan_name", VStr "Saver"); ("base_cost", base);
         ("included_minutes", mins); ("included_data_gb", VFloat 10);
         ("cost_per_minute", VFloat (3 # 10)); ("cost_per_gb", VInt 8);
         ("roaming_included", roaming); ("colour", VStr "red")].

Definition no_provider : value := VDict [("plan_code", VStr "X")].

Definition entry_a : value :=
  entry (VStr "A") (VInt 30) (VInt 300) (VBool false).
Definition entry_b : value :=
  entry (VStr "B") (VFloat (81 # 2)) (VStr " 500 ") (VBool true).
Definition entry_c : value :=
  entry (VStr "C") (VInt 50) (VInt 100) (VBool false).
Definition entry_bad_minutes : value :=
  entry (VStr "D") (VInt 20) (VStr "many") (VBool true).
Definition entry_a_again : value :=
  entry (VStr " A ") (VInt 50) (VInt 100) (VBool true).
Definition entry_text_false : value :=
  entry (VStr "F") (VInt 30) (VInt 300) (VStr "false").

Definition mixed_entries : list value :=
  [entry_a; no_provider; entry_b; entry_bad_minutes; entry_c].

Definition mixed_doc : value := VDict [("plans", VList mixed_entries)].

Definition repeated_entries : list value :=
  [entry_a; no_provider; entry_a_again; entry_bad_minutes; entry_b].

Definition repeated_doc : value := VDict [("plans", VList repeated_entries)].

Definition catalog_of (r : result (dict plan * list signal)) : dict plan :=
  match r with
  | Ok (plans, _) => plans
  | Raise _ => []
  end.

Definition signals_of (r : result (dict plan * list signal)) : list signal :=
  match r with
  | Ok (_, out) => out
  | Raise _ => []
  end.

Definition blank_code_doc : value :=
  VDict [("plans",
          VList [entry (VStr "   ") (VInt 30) (VInt 300) (VBool false)])].



(** ** Well-formedness predicates used by the statements *)


(** ** The plan cost listing *)

(** One printed line of [display_plan_costs]. *)
Record cost_row : Type := {
  row_code : string;
  row_full_name : string;
  row_monthly : Q;
  row_eligible : bool
}.

(** What [display_plan_costs] prints. *)
Inductive cost_listing : Type :=
| ListingEnterUsageFirst
| ListingNoPlans
| Listing (rows : list cost_row).

Definition cost_row_of (u : usage) (entry : string * plan) : cost_row :=
  let '(code, p) := entry in
  let monthly := cost_for_usage p (minutes u) (data_gb u) in
  let eligible := if roaming_required u && negb (roaming_included p)
                  then false else true in
  {| row_code := code;
     row_full_name := String.append (provider p)
                        (String.append " - " (plan_name p));
     row_monthly := monthly;
     row_eligible := eligible |}.

Definition display_plan_costs (plans : dict plan) (current : option usage)
  : cost_listing :=
  match current with
  | None => ListingEnterUsageFirst
  | Some u =>
      match plans with
      | [] => ListingNoPlans
      | _ :: _ => Listing (map (cost_row_of u) plans)
      end
  end.



(** ** Vocabulary for further loader statements *)

(** The keys [load_plans] reads from an entry, in the order it reads them. *)
Definition plan_fields : list string :=
  ["plan_code"; "provider"; "plan_name"; "base_cost"; "included_minutes";
   "included_data_gb"; "cost_per_minute"; "cost_per_gb"; "roaming_included"].

(** The distinct elements of a list, each at its first position. *)
Fixpoint first_occurrences (l : list string) : list string :=
  match l with
  | [] => []
  | k :: rest =>
      k :: filter (fun k' => negb (String.eqb k' k)) (first_occurrences rest)
  end.

Definition entry_a_plain : value :=
  VDict [("roaming_included", VBool false); ("cost_per_gb", VInt 8);
         ("cost_per_minute", VFloat (3 # 10)); ("included_data_gb", VFloat 10);
         ("included_minutes", VInt 300); ("base_cost", VInt 30);
         ("plan_name", VStr "Saver"); ("provider", VStr " TelcoX ");
         ("plan_code", VStr "A")].

Definition mixed_doc_without_bad : value :=
  VDict [("plans", VList [entry_a; no_provider; entry_b; entry_c])].

(** ** Vocabulary for further store statements *)

(** The tables a sequence of saves builds from the empty table. *)
Inductive saved : db -> Prop :=
| saved_empty : saved []
| saved_more (now : Z) (name : string) (mins : Z) (gb : Q) (roaming : bool)
    (t t' : db) :
    saved t -> save_usage now name mins gb roaming t = Ok t' -> saved t'.

(** Rowids above a bound and strictly growing along the table. *)
Fixpoint ids_above (lo : Z) (t : db) : Prop :=
  match t with
  | [] => True
  | r :: t' => lo < id r /\ ids_above (id r) t'
  end.

(** ** The console: prompts, input helpers and the menu loop *)

(** What the session prints, one constructor per kind of message. *)
Inductive printed : Type :=
| Prompt (text : string)
| IntTooSmall (minimum : Z)
| FloatTooSmall (minimum : Q)
| InvalidNumber
| AnswerYesOrNo
| Banner
| LoaderSaid (s : signal)
| ShowUsage (current : option usage)
| ShowMenu
| BlankLine
| UsageEntered
| ShowCosts (listing : cost_listing)
| ShowRecommendation (r : recommendation)
| SaveNeedsUsage
| SavedToStore
| NothingSavedForName
| LoadedFromStore
| ShowStats (report : stats_report)
| Goodbye
| InvalidChoice.

(** The lines still to be read from standard input and what has been
    printed so far. *)
Record console : Type := {
  stdin : list string;
  stdout : list printed
}.

(** How a console action ends: with a value, with an exception of the
    program, or with the [EOFError] of [input] at the end of the input. *)
Inductive outcome (A : Type) : Type :=
| Done (a : A)
| Failed (e : exn)
| EndOfInput.

Arguments Done {A} a.
Arguments Failed {A} e.
Arguments EndOfInput {A}.

Definition io (A : Type) : Type := console -> outcome A * console.

Definition io_ret {A : Type} (a : A) : io A := fun c => (Done a, c).

Definition io_bind {A B : Type} (m : io A) (k : A -> io B) : io B :=
  fun c =>
    match m c with
    | (Done a, c') => k a c'
    | (Failed e, c') => (Failed e, c')
    | (EndOfInput, c') => (EndOfInput, c')
    end.

Notation "x <~ m ;; k" := (io_bind m (fun x => k))
  (at level 61, m at next level, right associativity).

Definition say (out : list printed) (p : list printed) (rest : list string)
  : console :=
  {| stdin := rest; stdout := out ++ p |}.

Definition print (p : printed) : io unit :=
  fun c => (Done tt, say (stdout c) [p] (stdin c)).

(** [input(prompt)]: the prompt is written, then a line is read. *)
Definition input (prompt : string) : io string :=
  fun c =>
    match stdin c with
    | [] => (EndOfInput, say (stdout c) [Prompt prompt] [])
    | line :: rest => (Done line, say (stdout c) [Prompt prompt] rest)
    end.

(** A call that may raise. *)
Definition lift {A : Type} (r : result A) : io A :=
  fun c =>
    match r with
    | Ok a => (Done a, c)
    | Raise e => (Failed e, c)
    end.

(** [str.lower()] on code points below 256. *)
Definition lower_char (c : ascii) : ascii :=
  let n := N_of_ascii c in
  if (((65 <=? n) && (n <=? 90)) || ((192 <=? n) && (n <=? 214))
      || ((216 <=? n) && (n <=? 222)))%N
  then ascii_of_N (n + 32)
  else c.

Fixpoint lower (s : string) : string :=
  match s with
  | EmptyString => EmptyString
  | String c s' => String (lower_char c) (lower s')
  end.

Section InputHelpers.
Context `{Builtins}.

(** The [while True] loop of [input_int] over the lines still unread. *)
Fixpoint input_int_from (prompt : string) (minimum : Z)
  (lines : list string) (out : list printed) : outcome Z * console :=
  match lines with
  | [] => (EndOfInput, say out [Prompt prompt] [])
  | line :: rest =>
      let raw := strip line in
      match int_of_text raw with
      | Some value =>
          if value <? minimum
          then input_int_from prompt minimum rest
                 (out ++ [Prompt prompt; IntTooSmall minimum])
          else (Done value, say out [Prompt prompt] rest)
      | None =>
          input_int_from prompt minimum rest
            (out ++ [Prompt prompt; InvalidNumber])
      end
  end.

Definition input_int (prompt : string) (minimum : Z) : io Z :=
  fun c => input_int_from prompt minimum (stdin c) (stdout c).

Fixpoint input_float_from (prompt : string) (minimum : Q)
  (lines : list string) (out : list printed) : outcome Q * console :=
  match lines with
  | [] => (EndOfInput, say out [Prompt prompt] [])
  | line :: rest =>
      let raw := strip line in
      match float_of_text raw with
      | Some value =>
          if Qltb value minimum
          then input_float_from prompt minimum rest
                 (out ++ [Prompt prompt; FloatTooSmall minimum])
          else (Done value, say out [Prompt prompt] rest)
      | None =>
          input_float_from prompt minimum rest
            (out ++ [Prompt prompt; InvalidNumber])
      end
  end.

Definition input_float (prompt : string) (minimum : Q) : io Q :=
  fun c => input_float_from prompt minimum (stdin c) (stdout c).
End InputHelpers.

Fixpoint input_yes_no_from (prompt : string) (lines : list string)
  (out : list printed) : outcome bool * console :=
  let asked := Prompt (String.append prompt " (y/n): ") in
  match lines with
  | [] => (EndOfInput, say out [asked] [])
  | line :: rest =>
      let raw := lower (strip line) in
      if String.eqb raw "y" || String.eqb raw "yes"
      then (Done true, say out [asked] rest)
      else if String.eqb raw "n" || String.eqb raw "no"
      then (Done false, say out [asked] rest)
      else input_yes_no_from prompt rest (out ++ [asked; AnswerYesOrNo])
  end.

Definition input_yes_no (prompt : string) : io bool :=
  fun c => input_yes_no_from prompt (stdin c) (stdout c).

(** [init_db]: the table after CREATE TABLE IF NOT EXISTS, from the table
    found in the file, if any. *)
Definition init_db (file : option db) : db :=
  match file with
  | Some t => t
  | None => []
  end.

(** The state [main] carries from one menu round to the next. *)
Record session : Type := {
  current_usage : option usage;
  table : db
}.

Section Menu.
Context `{Builtins}.

(** The reading of the clock at the INSERT that adds row number [n]. *)
Variable clock : nat -> Z.
Variable plans : dict plan.

(** One pass through the body of the [while True] loop of [main];
    [None] is the [break]. *)
Definition menu_round (s : session) : io (option session) :=
  _ <~ print (ShowUsage (current_usage s)) ;;
  _ <~ print ShowMenu ;;
  line <~ input "Choose an option (1-8): " ;;
  let choice := strip line in
  _ <~ print BlankLine ;;
  if String.eqb choice "1" then
    typed <~ input "Enter person's name (for saving later; can be blank): " ;;
    let name := if String.eqb (strip typed) "" then "(Anonymous)"
                else strip typed in
    mins <~ input_int "Typical monthly call minutes: " 0 ;;
    gb <~ input_float "Typical monthly data usage (GB): " 0 ;;
    roaming <~ input_yes_no "Require international roaming?" ;;
    _ <~ print UsageEntered ;;
    io_ret (Some {| current_usage :=
                      Some {| person_name := name; minutes := mins;
                              data_gb := gb; roaming_required := roaming |};
                    table := table s |})
  else if String.eqb choice "2" then
    _ <~ print (ShowUsage (current_usage s)) ;;
    io_ret (Some s)
  else if String.eqb choice "3" then
    _ <~ print (ShowCosts (display_plan_costs plans (current_usage s))) ;;
    io_ret (Some s)
  else if String.eqb choice "4" then
    r <~ lift (recommend_best_plan plans (current_usage s)) ;;
    _ <~ print (ShowRecommendation r) ;;
    io_ret (Some s)
  else if String.eqb choice "5" then
    match current_usage s with
    | None =>
        _ <~ print SaveNeedsUsage ;;
        io_ret (Some s)
    | Some u =>
        t' <~ lift (save_usage (clock (List.length (table s)))
                      (person_name u) (minutes u) (data_gb u)
                      (roaming_required u) (table s)) ;;
        _ <~ print SavedToStore ;;
        io_ret (Some {| current_usage := current_usage s; table := t' |})
    end
  else if String.eqb choice "6" then
    typed <~ input "Load usage for which person name? " ;;
    let name := strip typed in
    match load_usage name (table s) with
    | None =>
        _ <~ print NothingSavedForName ;;
        io_ret (Some s)
    | Some (mins, gb, roaming) =>
        _ <~ print LoadedFromStore ;;
        io_ret (Some {| current_usage :=
                          Some {| person_name := name; minutes := mins;
                                  data_gb := gb;
                                  roaming_required := roaming |};
                        table := table s |})
    end
  else if String.eqb choice "7" then
    report <~ lift (show_stats (table s)) ;;
    _ <~ print (ShowStats report) ;;
    io_ret (Some s)
  else if String.eqb choice "8" then
    _ <~ print Goodbye ;;
    io_ret None
  else
    _ <~ print InvalidChoice ;;
    io_ret (Some s).

(** The loop, for at most [fuel] rounds; [None] when the rounds run out.
    Every round reads a line, so one round more than there are lines is
    enough. *)
Fixpoint main_loop (fuel : nat) (s : session) (c : console)
  : option (outcome session * console) :=
  match fuel with
  | O => None
  | S fuel' =>
      match menu_round s c with
      | (Done (Some s'), c') => main_loop fuel' s' c'
      | (Done None, c') => Some (Done s, c')
      | (Failed e, c') => Some (Failed e, c')
      | (EndOfInput, c') => Some (EndOfInput, c')
      end
  end.
End Menu.

Section Main.
Context `{Builtins}.
Variable clock : nat -> Z.

(** [main], given what the plan file holds, the table found in the
    database file and the console. *)
Definition main (src : source) (file : option db) (c : console)
  : option (outcome session * console) :=
  let c0 := say (stdout c) [Banner] (stdin c) in
  match load_plans "plans.json" src with
  | Raise e => Some (Failed e, c0)
  | Ok (plans, out) =>
      let c1 := say (stdout c0) (map LoaderSaid out) (stdin c0) in
      main_loop clock plans (S (List.length (stdin c)))
        {| current_usage := None; table := init_db file |} c1
  end.
End Main.

(** A session whose profile and stored rows have no negative usage. *)
Definition usage_ok (u : usage) : Prop :=
  0 <= minutes u /\ (0 <= data_gb u)%Q.

Definition session_ok (s : session) : Prop :=
  (forall u, current_usage s = Some u -> usage_ok u)
  /\ Forall (fun r => 0 <= row_minutes r /\ (0 <= row_data_gb r)%Q) (table s).

Definition tick (n : nat) : Z := 1000 + 60 * Z.of_nat n.

Definition script : list string :=
  ["1"; " Ann "; "-3"; "abc"; "250"; "4"; "maybe"; "YES";
   "5"; "9"; "6"; "Ann"; "7"; "8"; "1"].

(** Sample sessions. *)
Definition fresh_console (lines : list string) : console :=
  {| stdin := lines; stdout := [] |}.

Definition start_session : session :=
  {| current_usage := Some home_user; table := table_of three_saves |}.

Definition rows_nonnegative (t : db) : Prop :=
  Forall (fun r => 0 <= row_minutes r /\ (0 <= row_data_gb r)%Q) t.

(** * Properties *)

(** ** Cost engine *)

Lemma Qltb_true (a b : Q) : Qltb a b = true <-> (a < b)%Q.
Proof.
  unfold Qltb. rewrite negb_true_iff.
  split; intro Hab.
  - apply Qnot_le_lt. intro Hle.
    apply Qle_bool_iff in Hle. congruence.
  - destruct (Qle_bool b a) eqn:E; [|reflexivity].
    apply Qle_bool_iff in E. exfalso. apply (Qlt_not_le _ _ Hab E).
Qed.

Lemma Qltb_false (a b : Q) : Qltb a b = false <-> (b <= a)%Q.
Proof.
  unfold Qltb. rewrite negb_false_iff. apply Qle_bool_iff.
Qed.

Lemma py_max_Z_max (a b : Z) : py_max_Z a b = Z.max a b.
Proof.
  unfold py_max_Z. destruct (a <? b) eqn:E.
  - apply Z.ltb_lt in E. lia.
  - apply Z.ltb_ge in E. lia.
Qed.









(** ** Recommendation *)


Section Scan.
Variable u : usage.

Lemma scanned_step (l : dict plan) (best : option (string * Q))
  (entry : string * plan) :
  scanned u l best -> scanned u (l ++ [entry]) (scan_step u best entry).
Proof.
  destruct entry as [c p]. intro Hs. unfold scan_step.
  destruct (roaming_required u && negb (roaming_included p)) eqn:Hskip.
  - (* the plan is skipped *)
    assert (Hp : eligible u p = false) by (unfold eligible; now rewrite Hskip).
    destruct Hs as [l Hall | before after code p0 Hel Hb Ha].
    + apply scanned_none. intros c' p' Hin.
      apply in_app_or in Hin as [Hin|[Heq|[]]]; [eauto|].
      now inversion Heq; subst.
    + rewrite <- app_assoc. simpl. apply scanned_some; auto.
      intros c' p' Hin Hel'.
      apply in_app_or in Hin as [Hin|[Heq|[]]]; [eauto|].
      inversion Heq; subst. congruence.
  - (* the plan is priced *)
    assert (Hp : eligible u p = true) by (unfold eligible; now rewrite Hskip).
    fold (monthly_cost u p).
    destruct Hs as [l Hall | before after code p0 Hel Hb Ha].
    + apply scanned_some with (after := []); auto.
      * intros c' p' Hin Hel'. apply Hall in Hin. congruence.
      * intros c' p' [].
    + destruct (Qltb (monthly_cost u p) (monthly_cost u p0)) eqn:Hlt.
      * apply Qltb_true in Hlt.
        apply scanned_some with (after := []); auto.
        -- intros c' p' Hin Hel'.
           apply in_app_or in Hin as [Hin|[Heq|Hin]].
           ++ specialize (Hb _ _ Hin Hel'). lra.
           ++ inversion Heq; subst. exact Hlt.
           ++ specialize (Ha _ _ Hin Hel'). lra.
        -- intros c' p' [].
      * apply Qltb_false in Hlt.
        rewrite <- app_assoc. simpl. apply scanned_some; auto.
        intros c' p' Hin Hel'.
        apply in_app_or in Hin as [Hin|[Heq|[]]]; [eauto|].
        inversion Heq; subst. exact Hlt.
Qed.

Lemma scan_scanned (plans : dict plan) : scanned u plans (scan u plans None).
Proof.
  unfold scan. induction plans as [|entry plans IH] using rev_ind.
  - apply scanned_none. intros c p [].
  - rewrite fold_left_app. simpl. apply scanned_step, IH.
Qed.
End Scan.


(** C3. Over an empty catalog, and over a catalog none of whose plans is
    eligible, the recommendation returns normally and carries no plan: it
    reports that no plans are loaded, respectively that no plan meets the
    roaming requirement. *)
Theorem recommend_best_plan_none_eligible (plans : dict plan) (u : usage) :
  (forall c p, In (c, p) plans -> eligible u p = false) ->
  exists r,
    recommend_best_plan plans (Some u) = Ok r
    /\ recommended r = None
    /\ (plans = [] -> r = NoPlansLoaded)
    /\ (plans <> [] -> r = NoPlanMeetsRoaming).
Proof.
  intro Hall. unfold recommend_best_plan.
  destruct plans as [|entry plans'].
  - exists NoPlansLoaded. repeat split; congruence.
  - pose proof (scan_scanned u (entry :: plans')) as Hs.
    remember (entry :: plans') as plans eqn:Hplans.
    destruct Hs as [l _ | before after code0 p0 Hel0 _ _].
    + exists NoPlanMeetsRoaming. repeat split; congruence.
    + exfalso. specialize (Hall code0 p0).
      rewrite Hall in Hel0; [discriminate|].
      apply in_or_app. right. now left.
Qed.



Lemma recommend_best_plan_none_eligible_witness :
  (exists r,
      recommend_best_plan [] (Some home_user) = Ok r
      /\ recommended r = None
      /\ (@nil (string * plan) = [] -> r = NoPlansLoaded)
      /\ (@nil (string * plan) <> [] -> r = NoPlanMeetsRoaming))
  /\ (exists r,
        recommend_best_plan home_only (Some traveller) = Ok r
        /\ recommended r = None
        /\ (home_only = [] -> r = NoPlansLoaded)
        /\ (home_only <> [] -> r = NoPlanMeetsRoaming)).
Proof.
  split.
  - apply (recommend_best_plan_none_eligible [] home_user).
    intros c p [].
  - apply (recommend_best_plan_none_eligible home_only traveller).
    intros c p [Heq|[]]. inversion Heq. reflexivity.
Defined.

(** ** Strings and dictionaries *)

Lemma rstrip_idempotent (s : string) : rstrip (rstrip s) = rstrip s.
Proof.
  induction s as [|c s IH]; simpl; [reflexivity|].
  destruct (rstrip s) as [|c' t] eqn:E.
  - destruct (isspace c) eqn:Hc; simpl; [reflexivity|].
    now rewrite Hc.
  - change (rstrip (String c (String c' t)))
      with (match rstrip (String c' t) with
            | EmptyString =>
                if isspace c then EmptyString else String c EmptyString
            | String a b => String c (String a b)
            end).
    now rewrite IH.
Qed.

Lemma lstrip_head (s : string) :
  lstrip s = EmptyString
  \/ exists c t, lstrip s = String c t /\ isspace c = false.
Proof.
  induction s as [|c s IH]; simpl; [now left|].
  destruct (isspace c) eqn:Hc; [exact IH|].
  right. now exists c, s.
Qed.

Lemma rstrip_keeps_head (c : ascii) (t : string) :
  isspace c = false -> exists t', rstrip (String c t) = String c t'.
Proof.
  intro Hc. simpl. destruct (rstrip t) as [|c' t'].
  - rewrite Hc. now exists EmptyString.
  - now exists (String c' t').
Qed.

Lemma strip_idempotent (s : string) : strip (strip s) = strip s.
Proof.
  unfold strip.
  destruct (lstrip_head s) as [-> | (c & t & -> & Hc)]; [reflexivity|].
  destruct (rstrip_keeps_head c t Hc) as [t' Ht'].
  rewrite Ht'. simpl lstrip. rewrite Hc, <- Ht'.
  apply rstrip_idempotent.
Qed.

Lemma dict_get_set_same {V : Type} (k : string) (v : V) (d : dict V) :
  dict_get k (dict_set k v d) = Some v.
Proof.
  induction d as [|[k' v'] d IH]; simpl.
  - now rewrite String.eqb_refl.
  - destruct (String.eqb k k') eqn:E; simpl.
    + now rewrite String.eqb_refl.
    + now rewrite E.
Qed.

Lemma dict_get_set_other {V : Type} (k k' : string) (v : V) (d : dict V) :
  k' <> k -> dict_get k' (dict_set k v d) = dict_get k' d.
Proof.
  intro Hne. induction d as [|[k0 v0] d IH]; simpl.
  - destruct (String.eqb_spec k' k); congruence.
  - destruct (String.eqb_spec k k0) as [->|Hk]; simpl.
    + destruct (String.eqb_spec k' k0); congruence.
    + destruct (String.eqb_spec k' k0); congruence.
Qed.

Lemma keys_dict_set {V : Type} (k : string) (v : V) (d : dict V) :
  (In k (keys d) /\ keys (dict_set k v d) = keys d)
  \/ (~ In k (keys d) /\ keys (dict_set k v d) = keys d ++ [k]).
Proof.
  induction d as [|[k' v'] d IH]; simpl.
  - right. split; [tauto|reflexivity].
  - destruct (String.eqb_spec k k') as [->|Hk]; simpl.
    + left. split; [now left|reflexivity].
    + destruct IH as [[Hin ->]|[Hnot ->]].
      * left. split; [now right|reflexivity].
      * right. split; [|reflexivity]. intros [Heq|Hin]; congruence.
Qed.

Lemma dict_set_nodup {V : Type} (k : string) (v : V) (d : dict V) :
  NoDup (keys d) -> NoDup (keys (dict_set k v d)).
Proof.
  intro Hnd. destruct (keys_dict_set k v d) as [[_ ->]|[Hnot ->]].
  - exact Hnd.
  - apply NoDup_app; [exact Hnd | repeat constructor; simpl; tauto |].
    intros a Ha [<-|[]]. exact (Hnot Ha).
Qed.

Lemma dict_get_in {V : Type} (k : string) (v : V) (d : dict V) :
  dict_get k d = Some v -> In (k, v) d.
Proof.
  induction d as [|[k' v'] d IH]; simpl; [discriminate|].
  destruct (String.eqb_spec k k') as [->|Hk].
  - intro Heq. inversion Heq. now left.
  - intro Hget. right. now apply IH.
Qed.

Lemma dict_get_none {V : Type} (k : string) (d : dict V) :
  dict_get k d = None <-> ~ In k (keys d).
Proof.
  induction d as [|[k' v'] d IH]; simpl; [tauto|].
  destruct (String.eqb_spec k k') as [->|Hk].
  - split; [discriminate|]. intro Hn. exfalso. apply Hn. now left.
  - rewrite IH. split; intro Hn; [intros [Heq|Hin]; congruence | tauto].
Qed.

(** ** What a run of stores leaves in the catalog *)

Lemma store_all_nodup (entries : list (string * plan)) (d : dict plan) :
  NoDup (keys d) -> NoDup (keys (store_all entries d)).
Proof.
  revert d. induction entries as [|[c p] entries IH]; intros d Hnd; simpl.
  - exact Hnd.
  - apply IH. now apply dict_set_nodup.
Qed.

Lemma store_all_keys (entries : list (string * plan)) (d : dict plan)
  (c : string) :
  In c (keys (store_all entries d)) <-> In c (keys d) \/ In c (map fst entries).
Proof.
  revert d. induction entries as [|[c0 p0] entries IH]; intro d; simpl.
  - tauto.
  - unfold store_all in IH. rewrite IH.
    destruct (keys_dict_set c0 p0 d) as [[Hin ->]|[Hnot ->]].
    + split; [tauto|]. intros [H|[<-|H]]; tauto.
    + rewrite in_app_iff. simpl. tauto.
Qed.

Lemma store_all_get_absent (entries : list (string * plan)) (d : dict plan)
  (c : string) :
  ~ In c (map fst entries) ->
  dict_get c (store_all entries d) = dict_get c d.
Proof.
  revert d. induction entries as [|[c0 p0] entries IH]; intros d Hnot; simpl.
  - reflexivity.
  - simpl in Hnot. unfold store_all in IH. rewrite IH by tauto.
    apply dict_get_set_other. intro Heq. apply Hnot. now left.
Qed.




(** ** Plan loader *)

Ltac step_bind H :=
  match type of H with
  | bind ?r _ = _ =>
      let E := fresh "E" in
      let a := fresh "a" in
      let e := fresh "e" in
      destruct r as [a|e] eqn:E; cbn [bind] in H
  end.


Section LoaderFacts.
Context `{Builtins}.




Lemma read_entry_code_trimmed (item : value) (c : string) (p : plan) :
  read_entry item = Ok (c, p) -> strip c = c.
Proof.
  unfold read_entry. intro Hr.
  repeat (step_bind Hr; [|discriminate]).
  inversion Hr. apply strip_idempotent.
Qed.

Lemma accepted_cons (item : value) (rest : list value) :
  accepted (item :: rest)
  = match read_entry item with
    | Ok cp => cp :: accepted rest
    | Raise _ => accepted rest
    end.
Proof. unfold accepted. simpl. now destruct (read_entry item). Qed.

Lemma rejected_cons (item : value) (rest : list value) :
  rejected (item :: rest)
  = match read_entry item with
    | Ok _ => rejected rest
    | Raise e => WarnSkip item e :: rejected rest
    end.
Proof. unfold rejected. simpl. now destruct (read_entry item). Qed.

Lemma accepted_app (l1 l2 : list value) :
  accepted (l1 ++ l2) = accepted l1 ++ accepted l2.
Proof. unfold accepted. apply flat_map_app. Qed.

Lemma accepted_in (items : list value) (c : string) (p : plan) :
  In (c, p) (accepted items) <->
  exists item, In item items /\ read_entry item = Ok (c, p).
Proof.
  unfold accepted. rewrite in_flat_map. split.
  - intros (item & Hin & Hcp). exists item. split; [exact Hin|].
    destruct (read_entry item) as [cp|e]; [|destruct Hcp].
    destruct Hcp as [->|[]]. reflexivity.
  - intros (item & Hin & Hr). exists item. split; [exact Hin|].
    rewrite Hr. now left.
Qed.

Lemma rejected_in (items : list value) (item : value) (e : exn) :
  In (WarnSkip item e) (rejected items) ->
  In item items /\ read_entry item = Raise e.
Proof.
  unfold rejected. rewrite in_flat_map.
  intros (item' & Hin & Hs).
  destruct (read_entry item') as [cp|e'] eqn:E; [destruct Hs|].
  destruct Hs as [Heq|[]]. inversion Heq; subst. now split.
Qed.



(** The loop, when it returns, has stored the accepted entries in order
    and printed one warning per other entry. *)
Lemma load_entries_returns (items : list value) (plans plans' : dict plan)
  (out out' : list signal) :
  load_entries items plans out = Ok (plans', out') ->
  plans' = store_all (accepted items) plans /\ out' = out ++ rejected items.
Proof.
  revert plans out. induction items as [|item items IH]; intros plans out.
  - simpl. intro Hr. inversion Hr. now rewrite app_nil_r.
  - cbn [load_entries]. rewrite accepted_cons, rejected_cons.
    destruct (read_entry item) as [[c p]|e].
    + intro Hr. apply IH in Hr. exact Hr.
    + destruct (caught e); [|discriminate].
      intro Hr. apply IH in Hr as [-> ->].
      split; [reflexivity|]. now rewrite <- app_assoc.
Qed.

(** The loop returns when every failing entry fails with an exception the
    [except] clause names. *)
Lemma load_entries_total (items : list value) (plans : dict plan)
  (out : list signal) :
  Forall (fun item => recoverable item = true) items ->
  load_entries items plans out
  = Ok (store_all (accepted items) plans, out ++ rejected items).
Proof.
  intro Hall. revert plans out.
  induction Hall as [|item items Hrec _ IH]; intros plans out.
  - simpl. now rewrite app_nil_r.
  - cbn [load_entries]. rewrite accepted_cons, rejected_cons.
    unfold recoverable in Hrec.
    destruct (read_entry item) as [[c p]|e].
    + apply IH.
    + rewrite Hrec, IH. now rewrite <- app_assoc.
Qed.

Lemma load_plans_returns (path : string) (data : value)
  (plans : dict plan) (out : list signal) :
  load_plans path (Document data) = Ok (plans, out) ->
  exists v items,
    get_default data "plans" (VList []) = Ok v
    /\ iterate v = Ok items
    /\ plans = store_all (accepted items) []
    /\ out = rejected items
             ++ (if (List.length plans <? 5)%nat
                 then [NoteFewerThanFive] else []).
Proof.
  unfold load_plans. intro Hr.
  step_bind Hr; [|discriminate].
  step_bind Hr; [|discriminate].
  step_bind Hr; [|discriminate].
  destruct a1 as [plans0 out0].
  apply load_entries_returns in E1 as [-> ->]. simpl in Hr.
  exists a, a0. split; [reflexivity|]. split; [exact E0|].
  inversion Hr; subst.
  split; [reflexivity|].
  destruct (List.length (store_all (accepted a0) []) <? 5)%nat;
    [reflexivity | now rewrite app_nil_r].
Qed.

End LoaderFacts.

Section LoaderClaims.
Context `{Builtins}.


(** C8, amended.  Every code of a loaded catalog is a trimmed string: it
    has no white space at either end.  (It can be the empty string.) *)
Theorem load_plans_keys_trimmed (path : string) (src : source)
  (plans : dict plan) (out : list signal) :
  load_plans path src = Ok (plans, out) ->
  forall c, In c (keys plans) -> strip c = c.
Proof.
  intros Hload c Hc. destruct src as [|detail|e|data].
  - inversion Hload; subst. destruct Hc.
  - inversion Hload; subst. destruct Hc.
  - discriminate.
  - apply load_plans_returns in Hload as (v & items & _ & _ & -> & _).
    apply store_all_keys in Hc as [[]|Hc].
    apply in_map_iff in Hc as ([c' p] & Heq & Hin). simpl in Heq. subst c'.
    apply accepted_in in Hin as (item & _ & Hr).
    exact (read_entry_code_trimmed item c p Hr).
Qed.

(** C9.  When the entries of the source are walked in order and an entry
    accepted under a code is followed by no other accepted entry of that
    code, the loaded catalog maps the code to that entry's plan and lists
    the code exactly once, however many earlier entries carried it. *)
Theorem load_plans_last_wins (path : string) (data v : value)
  (pre post : list value) (item : value) (plans : dict plan)
  (out : list signal) (c : string) (p : plan) :
  get_default data "plans" (VList []) = Ok v ->
  iterate v = Ok (pre ++ item :: post) ->
  read_entry item = Ok (c, p) ->
  (forall item' p', In item' post -> read_entry item' <> Ok (c, p')) ->
  load_plans path (Document data) = Ok (plans, out) ->
  dict_get c plans = Some p /\ count_occ string_dec (keys plans) c = 1%nat.
Proof.
  intros Hget Hiter Hitem Hlast Hload.
  apply load_plans_returns in Hload as (v' & items & Hget' & Hiter' & -> & _).
  rewrite Hget in Hget'. inversion Hget'; subst v'.
  rewrite Hiter in Hiter'. inversion Hiter'; subst items.
  assert (Hc : dict_get c (store_all (accepted (pre ++ item :: post)) [])
               = Some p).
  { rewrite accepted_app, accepted_cons, Hitem.
    unfold store_all. rewrite fold_left_app. simpl.
    fold (store_all (accepted pre) []).
    fold (store_all (accepted post)
            (dict_set c p (store_all (accepted pre) []))).
    rewrite store_all_get_absent; [apply dict_get_set_same|].
    intro Hin. apply in_map_iff in Hin as ([c' p'] & Heq & Hin).
    simpl in Heq. subst c'.
    apply accepted_in in Hin as (item' & Hin' & Hr).
    exact (Hlast item' p' Hin' Hr). }
  split; [exact Hc|].
  apply NoDup_count_occ'.
  - apply store_all_nodup. constructor.
  - apply dict_get_in in Hc. apply in_map_iff. now exists (c, p).
Qed.

(** C10.  An entry whose nine fields are present and whose numeric fields
    convert is accepted whatever value [roaming_included] holds, with the
    truthiness of that value stored; a load that returns then has the
    entry's code in the catalog and prints no warning for the entry; the
    non-empty string "false" is truthy. *)
Theorem roaming_included_never_rejects (item v0 v1 v2 v3 v4 v5 v6 v7 v8 : value)
  (base gb cpm cpg : Q) (mins : Z) :
  getitem item "plan_code" = Ok v0 ->
  getitem item "provider" = Ok v1 ->
  getitem item "plan_name" = Ok v2 ->
  getitem item "base_cost" = Ok v3 -> py_float v3 = Ok base ->
  getitem item "included_minutes" = Ok v4 -> py_int v4 = Ok mins ->
  getitem item "included_data_gb" = Ok v5 -> py_float v5 = Ok gb ->
  getitem item "cost_per_minute" = Ok v6 -> py_float v6 = Ok cpm ->
  getitem item "cost_per_gb" = Ok v7 -> py_float v7 = Ok cpg ->
  getitem item "roaming_included" = Ok v8 ->
  read_entry item
  = Ok (strip (py_str v0),
        {| provider := strip (py_str v1);
           plan_name := strip (py_str v2);
           base_cost := base;
           included_minutes := mins;
           included_data_gb := gb;
           cost_per_minute := cpm;
           cost_per_gb := cpg;
           roaming_included := py_bool v8 |})
  /\ (forall path data v items plans out,
        get_default data "plans" (VList []) = Ok v ->
        iterate v = Ok items ->
        In item items ->
        load_plans path (Document data) = Ok (plans, out) ->
        In (strip (py_str v0)) (keys plans)
        /\ forall e, ~ In (WarnSkip item e) out)
  /\ py_bool (VStr "false") = true.
Proof.
  intros H0 H1 H2 H3 F3 H4 F4 H5 F5 H6 F6 H7 F7 H8.
  assert (Hread : read_entry item
                  = Ok (strip (py_str v0),
                        {| provider := strip (py_str v1);
                           plan_name := strip (py_str v2);
                           base_cost := base;
                           included_minutes := mins;
                           included_data_gb := gb;
                           cost_per_minute := cpm;
                           cost_per_gb := cpg;
                           roaming_included := py_bool v8 |})).
  { unfold read_entry.
    rewrite H0; cbn [bind]. rewrite H1; cbn [bind]. rewrite H2; cbn [bind].
    rewrite H3; cbn [bind]. rewrite F3; cbn [bind].
    rewrite H4; cbn [bind]. rewrite F4; cbn [bind].
    rewrite H5; cbn [bind]. rewrite F5; cbn [bind].
    rewrite H6; cbn [bind]. rewrite F6; cbn [bind].
    rewrite H7; cbn [bind]. rewrite F7; cbn [bind].
    rewrite H8; cbn [bind]. reflexivity. }
  split; [exact Hread|]. split; [|reflexivity].
  intros path data v items plans out Hget Hiter Hin Hload.
  apply load_plans_returns in Hload as (v' & items' & Hget' & Hiter' & -> & ->).
  rewrite Hget in Hget'. inversion Hget'; subst v'.
  rewrite Hiter in Hiter'. inversion Hiter'; subst items'.
  split.
  - apply store_all_keys. right. apply in_map_iff.
    eexists (_, _). split; [reflexivity|].
    apply accepted_in. exists item. split; [exact Hin|exact Hread].
  - intros e He. apply in_app_or in He as [He|He].
    + apply rejected_in in He as [_ He]. congruence.
    + destruct (List.length _ <? 5)%nat; [|destruct He].
      destruct He as [He|[]]. discriminate.
Qed.
End LoaderClaims.



Lemma load_plans_keys_trimmed_witness : strip "B" = "B".
Proof.
  eapply (load_plans_keys_trimmed (H := decimal_builtins) "plans.json"
            (Document mixed_doc)).
  - vm_compute. reflexivity.
  - simpl. right. left. reflexivity.
Defined.

(** The claim C8 as stated fails: an entry whose code is three spaces is
    stored, under the empty code. *)
Lemma load_plans_blank_code_kept :
  strip "   " = ""
  /\ recoverable (H := decimal_builtins) (entry (VStr "   ") (VInt 30) (VInt 300) (VBool false)) = true
  /\ keys (catalog_of (load_plans (H := decimal_builtins) "plans.json"
                         (Document blank_code_doc))) = [""].
Proof. repeat split; vm_compute; reflexivity. Qed.

Lemma load_plans_last_wins_witness :
  exists p,
    (dict_get "A" (catalog_of (load_plans (H := decimal_builtins) "plans.json"
                                 (Document repeated_doc))) = Some p
     /\ count_occ string_dec
          (keys (catalog_of (load_plans (H := decimal_builtins) "plans.json"
                               (Document repeated_doc)))) "A" = 1%nat)
    /\ base_cost p = 50%Q /\ roaming_included p = true.
Proof.
  eexists. split.
  - eapply (load_plans_last_wins (H := decimal_builtins) "plans.json"
              repeated_doc (VList repeated_entries)
              [entry_a; no_provider] [entry_bad_minutes; entry_b]
              entry_a_again _
              (signals_of (load_plans (H := decimal_builtins) "plans.json"
                             (Document repeated_doc)))).
    + reflexivity.
    + reflexivity.
    + vm_compute. reflexivity.
    + intros item' p' [<-|[<-|[]]]; vm_compute; discriminate.
    + vm_compute. reflexivity.
  - split; reflexivity.
Defined.

Lemma roaming_included_never_rejects_witness :
  exists p,
    read_entry (H := decimal_builtins) entry_text_false = Ok ("F", p)
    /\ roaming_included p = true.
Proof.
  eexists. split.
  - refine (proj1 (roaming_included_never_rejects (H := decimal_builtins)
                     entry_text_false (VStr "F") (VStr " TelcoX ")
                     (VStr "Saver") (VInt 30) (VInt 300) (VFloat 10)
                     (VFloat (3 # 10)) (VInt 8) (VStr "false")
                     30 10 (3 # 10) 8 300
                     _ _ _ _ _ _ _ _ _ _ _ _ _ _)); reflexivity.
  - reflexivity.
Defined.

(** ** Usage store *)

Lemma fold_left_add_acc (l : list Z) (a : Z) :
  fold_left Z.add l a = a + fold_left Z.add l 0.
Proof.
  revert a. induction l as [|x l IH]; intro a; simpl; [lia|].
  rewrite (IH (a + x)), (IH x). lia.
Qed.

Lemma sum_roaming_counts (t : db) :
  db_ok t ->
  fold_left Z.add (map row_roaming_required t) 0
  = Z.of_nat (roaming_rows t).
Proof.
  unfold roaming_rows.
  induction 1 as [|r t Hr _ IH]; [reflexivity|].
  cbn [map fold_left filter]. rewrite fold_left_add_acc, IH.
  unfold check_roaming in Hr. apply orb_true_iff in Hr.
  rewrite !Z.eqb_eq in Hr.
  destruct (Z.eqb_spec (row_roaming_required r) 1) as [E|E];
    cbn [List.length]; lia.
Qed.

Lemma save_usage_keeps_check (now : Z) (name : string) (mins : Z) (gb : Q)
  (roaming : bool) (t t' : db) :
  db_ok t -> save_usage now name mins gb roaming t = Ok t' -> db_ok t'.
Proof.
  unfold save_usage, db_ok. intros Hok Hs.
  destruct (negb (fits_int64 mins)); [discriminate|].
  match type of Hs with
  | (if check_roaming ?r then _ else _) = _ =>
      destruct (check_roaming r) eqn:Hc; [|discriminate]
  end.
  inversion Hs; subst. apply Forall_app. split; [exact Hok|].
  constructor; [exact Hc|constructor].
Qed.

(** C6.  On a table with no rows the statistics report is the empty one
    and both SQL averages are NULL, so nothing is divided; on a table with
    rows (each satisfying the schema's CHECK) a report with figures is
    returned whose count is the number of rows and whose roaming
    percentage is the number of rows with [roaming_required = 1], over all
    names, divided by the count, times 100. *)
Theorem show_stats_roaming_pct (t : db) :
  db_ok t ->
  (t = [] ->
   show_stats t = Ok NoSavedUsage
   /\ sql_avg (map (fun r => inject_Z (row_minutes r)) t) = None
   /\ sql_avg (map row_data_gb t) = None)
  /\ (t <> [] ->
      exists s,
        show_stats t = Ok (Statistics s)
        /\ count s = Z.of_nat (List.length t)
        /\ (roaming_pct s ==
              inject_Z (Z.of_nat (roaming_rows t))
              / inject_Z (Z.of_nat (List.length t)) * 100)%Q).
Proof.
  intro Hok. split.
  - intros ->. repeat split.
  - intro Hne. destruct t as [|r t']; [congruence|].
    remember (r :: t') as t eqn:Ht.
    assert (Hpos : 0 < Z.of_nat (List.length t))
      by (subst t; cbn [List.length]; lia).
    unfold show_stats.
    assert (Hcount : (sql_count t =? 0) = false).
    { unfold sql_count. apply Z.eqb_neq. lia. }
    rewrite Hcount.
    assert (Hsum : or_else (sql_sum (map row_roaming_required t)) 0
                   = Z.of_nat (roaming_rows t)).
    { rewrite <- (sum_roaming_counts t Hok). subst t.
      cbn [map sql_sum or_else].
      match goal with
      | |- (if ?c then _ else _) = _ => destruct c eqn:E
      end; [apply Z.eqb_eq in E; now rewrite E | reflexivity]. }
    assert (Htotal : py_max_Z 1 (or_else (Some (sql_count t)) 1)
                     = Z.of_nat (List.length t)).
    { unfold or_else. rewrite Hcount, py_max_Z_max. unfold sql_count. lia. }
    rewrite Hsum, Htotal. unfold py_div.
    assert (Hnz : Qeq_bool (inject_Z (Z.of_nat (List.length t))) 0 = false).
    { apply not_true_iff_false. intro Heq. apply Qeq_bool_iff in Heq.
      unfold Qeq in Heq. simpl in Heq. lia. }
    rewrite Hnz. cbn [bind]. subst t.
    cbn [map sql_avg sql_extreme format_num bind].
    eexists. split; [reflexivity|]. cbn [count roaming_pct].
    split; [reflexivity|].
    field. intro Heq. unfold Qeq in Heq. simpl in Heq. lia.
Qed.

Lemma show_stats_roaming_pct_witness :
  show_stats [] = Ok NoSavedUsage
  /\ exists s,
      show_stats (table_of three_saves) = Ok (Statistics s)
      /\ count s = 3
      /\ (roaming_pct s == (2 # 3) * 100)%Q.
Proof.
  split.
  - apply (show_stats_roaming_pct []); [constructor | reflexivity].
  - destruct (show_stats_roaming_pct (table_of three_saves))
      as [_ Hrows].
    + vm_compute. repeat constructor.
    + destruct Hrows as (s & Hs & Hc & Hp); [vm_compute; discriminate|].
      exists s. split; [exact Hs|]. split; [exact Hc|].
      rewrite Hp. vm_compute. reflexivity.
Defined.

Lemma newest_of_list (l : list row) (b : row) :
  fold_left newest_step l None = Some b ->
  In b l /\ forall r, In r l -> created_at r <= created_at b.
Proof.
  revert b. induction l as [|x l IH] using rev_ind; intro b.
  - discriminate.
  - rewrite fold_left_app. simpl.
    destruct (fold_left newest_step l None) as [b0|] eqn:E; simpl.
    + destruct (IH b0 eq_refl) as [Hin Hmax].
      destruct (Z.ltb_spec (created_at b0) (created_at x)) as [Hlt|Hge];
        intro Hb; inversion Hb; subst b; split.
      * apply in_or_app. right. now left.
      * intros r Hr. apply in_app_or in Hr as [Hr|[<-|[]]]; [|lia].
        specialize (Hmax r Hr). lia.
      * apply in_or_app. now left.
      * intros r Hr. apply in_app_or in Hr as [Hr|[<-|[]]]; [|lia].
        exact (Hmax r Hr).
    + intro Hb. inversion Hb; subst b.
      destruct l as [|y l'].
      * split; [now left|]. intros r [<-|[]]. lia.
      * exfalso. clear IH Hb.
        assert (Hsome : forall (l0 : list row) (s : row),
                   fold_left newest_step l0 (Some s) <> None).
        { induction l0 as [|z l0 IHl]; intro s; simpl; [discriminate|].
          destruct (created_at s <? created_at z); apply IHl. }
        simpl in E. exact (Hsome l' y E).
Qed.

(** A lookup under a name that no row carries finds nothing. *)
Lemma load_usage_unknown_name (name : string) (t : db) :
  (forall r, In r t -> row_person_name r <> name) ->
  load_usage name t = None.
Proof.
  intro Hnone. unfold load_usage, select_latest.
  replace (filter (fun r => String.eqb (row_person_name r) name) t)
    with (@nil row); [reflexivity|].
  symmetry. induction t as [|r t IH]; [reflexivity|]. simpl.
  destruct (String.eqb_spec (row_person_name r) name) as [Heq|_].
  - exfalso. apply (Hnone r); [now left | exact Heq].
  - apply IH. intros r' Hr'. apply Hnone. now right.
Qed.

(** A lookup returns the fields of a row with exactly that name whose
    timestamp no row of that name exceeds. *)
Lemma load_usage_exact_name (name : string) (t : db) (m : Z) (g : Q)
  (b : bool) :
  load_usage name t = Some (m, g, b) ->
  exists r,
    In r t /\ row_person_name r = name
    /\ m = row_minutes r /\ g = row_data_gb r
    /\ b = negb (row_roaming_required r =? 0)
    /\ forall r', In r' t -> row_person_name r' = name ->
                  created_at r' <= created_at r.
Proof.
  unfold load_usage, select_latest.
  destruct (fold_left newest_step _ None) as [r|] eqn:E; [|discriminate].
  intro Hl. inversion Hl; subst.
  apply newest_of_list in E as [Hin Hmax].
  apply filter_In in Hin as [Hin Hname].
  apply String.eqb_eq in Hname.
  exists r. repeat split; try assumption.
  intros r' Hr' Hname'. apply Hmax. apply filter_In.
  split; [exact Hr'|]. now apply String.eqb_eq.
Qed.

(** X15.  After a save stamped strictly later than every earlier row of
    the same name, the lookup under that name returns the saved minutes,
    data and roaming flag. *)
Lemma load_usage_after_later_save (now : Z) (name : string) (mins : Z)
  (gb : Q) (roaming : bool) (t t' : db) :
  save_usage now name mins gb roaming t = Ok t' ->
  (forall r, In r t -> row_person_name r = name -> created_at r < now) ->
  load_usage name t' = Some (mins, gb, roaming).
Proof.
  unfold save_usage. intros Hs Hlater.
  destruct (negb (fits_int64 mins)); [discriminate|].
  match type of Hs with
  | (if check_roaming ?r then _ else _) = _ =>
      destruct (check_roaming r); [|discriminate]
  end.
  inversion Hs; subst t'. clear Hs.
  unfold load_usage, select_latest.
  rewrite filter_app. cbn [filter row_person_name].
  rewrite String.eqb_refl, fold_left_app. cbn [fold_left].
  destruct (fold_left newest_step _ None) as [b|] eqn:E; cbn [newest_step].
  - apply newest_of_list in E as [Hin _].
    apply filter_In in Hin as [Hin Hname]. apply String.eqb_eq in Hname.
    specialize (Hlater b Hin Hname). cbn [created_at].
    apply Z.ltb_lt in Hlater. rewrite Hlater.
    cbn [row_minutes row_data_gb row_roaming_required].
    now destruct roaming.
  - cbn [row_minutes row_data_gb row_roaming_required].
    now destruct roaming.
Qed.

(** C5 at a failing input.  Two saves under one name stamped in the same
    second: both succeed, and the lookup under that name returns the
    first save's usage, not the one just appended. *)
Theorem load_usage_same_second_returns_older :
  (exists t1,
      save_usage 1000 "Ann" 100 (3 # 2) false [] = Ok t1
      /\ save_usage 1000 "Ann" 250 (9 # 2) true t1 = same_second_saves
      /\ same_second_saves = Ok (table_of same_second_saves))
  /\ List.length (table_of same_second_saves) = 2%nat
  /\ load_usage "Ann" (table_of same_second_saves) = Some (100, 3 # 2, false)
  /\ load_usage "Ann" (table_of same_second_saves) <> Some (250, 9 # 2, true).
Proof.
  split.
  - eexists. split; [vm_compute; reflexivity|]. split; reflexivity.
  - split; [reflexivity|]. split; [reflexivity|].
    vm_compute. discriminate.
Qed.

(** * Further properties *)

(** ** Cost engine, continued *)





(** ** Recommendation, continued *)















(** ** Plan loader, continued *)

Lemma filter_filter {A : Type} (f g : A -> bool) (l : list A) :
  filter f (filter g l) = filter (fun x => g x && f x) l.
Proof.
  induction l as [|x l IH]; [reflexivity|]. simpl.
  destruct (g x); simpl; [destruct (f x)|]; now rewrite IH.
Qed.

Lemma existsb_eqb_in (k : string) (l : list string) :
  existsb (String.eqb k) l = true <-> In k l.
Proof.
  rewrite existsb_exists. split.
  - intros (x & Hin & Heq). apply String.eqb_eq in Heq. now subst.
  - intro Hin. exists k. split; [exact Hin|apply String.eqb_refl].
Qed.

Lemma store_all_key_order (entries : list (string * plan)) (d : dict plan) :
  keys (store_all entries d)
  = keys d ++ filter (fun k => negb (existsb (String.eqb k) (keys d)))
                (first_occurrences (map fst entries)).
Proof.
  revert d. induction entries as [|[c p] entries IH]; intro d.
  - simpl. now rewrite app_nil_r.
  - change (store_all ((c, p) :: entries) d)
      with (store_all entries (dict_set c p d)).
    rewrite IH. cbn [map fst first_occurrences filter].
    destruct (keys_dict_set c p d) as [[Hin ->]|[Hnot ->]].
    + apply existsb_eqb_in in Hin. rewrite Hin. cbn [negb].
      f_equal. rewrite filter_filter. apply filter_ext_in.
      intros k _. destruct (String.eqb_spec k c) as [->|Hne]; simpl.
      * now rewrite Hin.
      * reflexivity.
    + assert (Hf : existsb (String.eqb c) (keys d) = false).
      { apply not_true_iff_false. now rewrite existsb_eqb_in. }
      rewrite Hf. cbn [negb]. rewrite <- app_assoc.
      f_equal. apply (f_equal (cons c)).
      rewrite filter_filter. apply filter_ext_in.
      intros k _. rewrite existsb_app. simpl. rewrite orb_false_r.
      destruct (String.eqb k c); simpl;
        [now rewrite orb_true_r | now rewrite orb_false_r].
Qed.

Lemma dict_set_in {V : Type} (k c : string) (v p : V) (d : dict V) :
  In (c, p) (dict_set k v d) -> (c, p) = (k, v) \/ In (c, p) d.
Proof.
  induction d as [|[k' v'] d IH]; simpl.
  - intros [Heq|[]]. now left.
  - destruct (String.eqb k k'); simpl.
    + intros [Heq|Hin]; [now left | now right; right].
    + intros [Heq|Hin]; [now right; left|].
      apply IH in Hin as [Heq|Hin]; [now left | now right; right].
Qed.

Lemma store_all_in (entries : list (string * plan)) (d : dict plan)
  (c : string) (p : plan) :
  In (c, p) (store_all entries d) -> In (c, p) entries \/ In (c, p) d.
Proof.
  revert d. induction entries as [|[c0 p0] entries IH]; intros d Hin.
  - now right.
  - change (store_all ((c0, p0) :: entries) d)
      with (store_all entries (dict_set c0 p0 d)) in Hin.
    apply IH in Hin as [Hin|Hin]; [now left; right|].
    apply dict_set_in in Hin as [Heq|Hin]; [now left; left | now right].
Qed.

Section LoaderMore.
Context `{Builtins}.


Lemma load_entries_ok_recoverable (items : list value) (plans plans' : dict plan)
  (out out' : list signal) :
  load_entries items plans out = Ok (plans', out') ->
  Forall (fun item => recoverable item = true) items.
Proof.
  revert plans out. induction items as [|item items IH]; intros plans out.
  - constructor.
  - cbn [load_entries]. unfold recoverable at 1.
    destruct (read_entry item) as [[c p]|e0] eqn:E.
    + intro Hr. constructor; [now rewrite E | now apply IH in Hr].
    + destruct (caught e0) eqn:Hc; [|discriminate].
      intro Hr. constructor; [now rewrite E | now apply IH in Hr].
Qed.

Lemma read_entry_names_trimmed (item : value) (c : string) (p : plan) :
  read_entry item = Ok (c, p) ->
  strip (provider p) = provider p /\ strip (plan_name p) = plan_name p.
Proof.
  unfold read_entry. intro Hr.
  repeat (step_bind Hr; [|discriminate]).
  inversion Hr. simpl. split; apply strip_idempotent.
Qed.


(** X8.  An entry is read through its nine plan fields only: two objects
    that agree on these keys are accepted with the same code and plan, or
    rejected with the same exception, whatever else they contain. *)
Theorem read_entry_ignores_other_fields (m1 m2 : list (string * value)) :
  (forall k, In k plan_fields -> dict_get k m1 = dict_get k m2) ->
  read_entry (VDict m1) = read_entry (VDict m2).
Proof.
  intro Hagree. unfold read_entry, getitem.
  rewrite (Hagree "plan_code"), (Hagree "provider"), (Hagree "plan_name"),
    (Hagree "base_cost"), (Hagree "included_minutes"),
    (Hagree "included_data_gb"), (Hagree "cost_per_minute"),
    (Hagree "cost_per_gb"), (Hagree "roaming_included")
    by (unfold plan_fields; simpl; tauto).
  reflexivity.
Qed.

(** X9.  The codes of a loaded catalog, in catalog order, are the codes of
    the accepted entries in order of first appearance. *)
Theorem load_plans_key_order (path : string) (data v : value)
  (items : list value) (plans : dict plan) (out : list signal) :
  get_default data "plans" (VList []) = Ok v ->
  iterate v = Ok items ->
  load_plans path (Document data) = Ok (plans, out) ->
  keys plans = first_occurrences (map fst (accepted items)).
Proof.
  intros Hget Hiter Hload.
  apply load_plans_returns in Hload as (v' & items' & Hget' & Hiter' & -> & _).
  rewrite Hget in Hget'. inversion Hget'; subst v'.
  rewrite Hiter in Hiter'. inversion Hiter'; subst items'.
  rewrite store_all_key_order. simpl.
  induction (first_occurrences (map fst (accepted items))) as [|k l IH];
    simpl; congruence.
Qed.

(** X10.  Every plan of a loaded catalog has a trimmed provider and a
    trimmed plan name. *)
Theorem load_plans_names_trimmed (path : string) (src : source)
  (plans : dict plan) (out : list signal) (c : string) (p : plan) :
  load_plans path src = Ok (plans, out) ->
  In (c, p) plans ->
  strip (provider p) = provider p /\ strip (plan_name p) = plan_name p.
Proof.
  intros Hload Hin. destruct src as [|detail|e|data].
  - inversion Hload; subst. destruct Hin.
  - inversion Hload; subst. destruct Hin.
  - discriminate.
  - apply load_plans_returns in Hload as (v & items & _ & _ & -> & _).
    apply store_all_in in Hin as [Hin|[]].
    apply accepted_in in Hin as (item & _ & Hr).
    exact (read_entry_names_trimmed item c p Hr).
Qed.

(** X11.  Removing an entry that the loader skips from the source changes
    nothing but the warnings: the load of the shorter source returns the
    same catalog, and the skipped entry had its warning. *)
Theorem load_plans_skip_has_no_effect (path : string) (d1 d2 v1 v2 : value)
  (pre post : list value) (item : value) (e : exn)
  (plans : dict plan) (out : list signal) :
  get_default d1 "plans" (VList []) = Ok v1 ->
  iterate v1 = Ok (pre ++ item :: post) ->
  get_default d2 "plans" (VList []) = Ok v2 ->
  iterate v2 = Ok (pre ++ post) ->
  read_entry item = Raise e ->
  load_plans path (Document d1) = Ok (plans, out) ->
  In (WarnSkip item e) out
  /\ exists out', load_plans path (Document d2) = Ok (plans, out').
Proof.
  intros Hg1 Hi1 Hg2 Hi2 Hitem Hload.
  assert (Hrec : Forall (fun i => recoverable i = true) (pre ++ item :: post)).
  { unfold load_plans in Hload. rewrite Hg1 in Hload. cbn [bind] in Hload.
    rewrite Hi1 in Hload. cbn [bind] in Hload.
    destruct (load_entries (pre ++ item :: post) [] [])
      as [[plans0 out0]|e0] eqn:El; [|discriminate].
    exact (load_entries_ok_recoverable _ _ _ _ _ El). }
  apply load_plans_returns in Hload as (v' & items' & Hg' & Hi' & -> & ->).
  rewrite Hg1 in Hg'. inversion Hg'; subst v'.
  rewrite Hi1 in Hi'. inversion Hi'; subst items'.
  assert (Hacc : accepted (pre ++ item :: post) = accepted (pre ++ post)).
  { rewrite !accepted_app, accepted_cons, Hitem. reflexivity. }
  split.
  - apply in_or_app. left. unfold rejected. apply in_flat_map.
    exists item. split; [apply in_or_app; right; now left|].
    rewrite Hitem. now left.
  - eexists. unfold load_plans. rewrite Hg2. cbn [bind].
    rewrite Hi2. cbn [bind]. rewrite load_entries_total.
    + cbn [bind]. rewrite Hacc. reflexivity.
    + apply Forall_app in Hrec as [Hpre Hpost].
      apply Forall_app. split; [exact Hpre|].
      now inversion Hpost.
Qed.
End LoaderMore.


Lemma read_entry_ignores_other_fields_witness :
  read_entry (H := decimal_builtins) entry_a_plain
  = read_entry (H := decimal_builtins) entry_a.
Proof.
  apply (read_entry_ignores_other_fields (H := decimal_builtins)).
  intros k Hk. unfold plan_fields in Hk. simpl in Hk.
  repeat (destruct Hk as [<-|Hk]; [reflexivity|]). destruct Hk.
Defined.

Lemma load_plans_key_order_witness :
  keys (catalog_of (load_plans (H := decimal_builtins) "plans.json"
                      (Document repeated_doc)))
  = first_occurrences
      (map fst (accepted (H := decimal_builtins) repeated_entries)).
Proof.
  eapply (load_plans_key_order (H := decimal_builtins) "plans.json"
            repeated_doc (VList repeated_entries) repeated_entries _
            (signals_of (load_plans (H := decimal_builtins) "plans.json"
                           (Document repeated_doc)))).
  - reflexivity.
  - reflexivity.
  - vm_compute. reflexivity.
Defined.

Lemma load_plans_names_trimmed_witness :
  strip "TelcoX" = "TelcoX" /\ strip "Saver" = "Saver".
Proof.
  eapply (load_plans_names_trimmed (H := decimal_builtins) "plans.json"
            (Document mixed_doc) _ _ "A"
            {| provider := "TelcoX"; plan_name := "Saver";
               base_cost := 30; included_minutes := 300;
               included_data_gb := 10; cost_per_minute := 3 # 10;
               cost_per_gb := 8; roaming_included := false |}).
  - vm_compute. reflexivity.
  - simpl. left. reflexivity.
Defined.

Lemma load_plans_skip_has_no_effect_witness :
  In (WarnSkip entry_bad_minutes ValueError)
    (signals_of (load_plans (H := decimal_builtins) "plans.json"
                   (Document mixed_doc)))
  /\ exists out',
      load_plans (H := decimal_builtins) "plans.json"
        (Document mixed_doc_without_bad)
      = Ok (catalog_of (load_plans (H := decimal_builtins) "plans.json"
                          (Document mixed_doc)), out').
Proof.
  eapply (load_plans_skip_has_no_effect (H := decimal_builtins) "plans.json"
            mixed_doc mixed_doc_without_bad _ _
            [entry_a; no_provider; entry_b] [entry_c] entry_bad_minutes).
  - reflexivity.
  - reflexivity.
  - reflexivity.
  - reflexivity.
  - vm_compute. reflexivity.
  - vm_compute. reflexivity.
Defined.

(** ** Usage store, continued *)

Lemma fold_left_max_bounds (l : list Z) (a : Z) :
  a <= fold_left Z.max l a /\ forall x, In x l -> x <= fold_left Z.max l a.
Proof.
  revert a. induction l as [|y l IH]; intro a; simpl.
  - split; [lia|]. intros x [].
  - destruct (IH (Z.max a y)) as [Hacc Hall]. split; [lia|].
    intros x [<-|Hin]; [lia|]. now apply Hall.
Qed.

Lemma next_id_above (t : db) :
  0 < next_id t /\ forall r, In r t -> id r < next_id t.
Proof.
  unfold next_id.
  destruct (fold_left_max_bounds (map id t) 0) as [Hacc Hall].
  split; [lia|]. intros r Hin.
  specialize (Hall (id r) (in_map id t r Hin)). lia.
Qed.

Lemma ids_above_snoc (lo : Z) (t : db) (r : row) :
  ids_above lo t -> lo < id r -> (forall r0, In r0 t -> id r0 < id r) ->
  ids_above lo (t ++ [r]).
Proof.
  revert lo. induction t as [|x t IH]; intros lo Habove Hlo Hall; simpl.
  - split; [exact Hlo|exact I].
  - destruct Habove as [Hx Hrest]. split; [exact Hx|].
    apply IH; [exact Hrest | apply Hall; now left |].
    intros r0 Hin. apply Hall. now right.
Qed.

Lemma ids_above_bound (lo : Z) (t : db) (r : row) :
  ids_above lo t -> In r t -> lo < id r.
Proof.
  revert lo. induction t as [|x t IH]; intros lo Habove Hin; [destruct Hin|].
  destruct Habove as [Hx Hrest]. destruct Hin as [<-|Hin]; [exact Hx|].
  specialize (IH (id x) Hrest Hin). lia.
Qed.

Lemma ids_above_nodup (lo : Z) (t : db) :
  ids_above lo t -> NoDup (map id t).
Proof.
  revert lo. induction t as [|x t IH]; intros lo Habove; simpl.
  - constructor.
  - destruct Habove as [Hx Hrest]. constructor; [|exact (IH _ Hrest)].
    intro Hin. apply in_map_iff in Hin as (r & Heq & Hin).
    pose proof (ids_above_bound _ _ _ Hrest Hin). lia.
Qed.

(** What a save does, read off [save_usage]. *)
Lemma save_usage_cases (now : Z) (name : string) (mins : Z) (gb : Q)
  (roaming : bool) (t : db) :
  (fits_int64 mins = false
   /\ save_usage now name mins gb roaming t = Raise OverflowError)
  \/ (fits_int64 mins = true
      /\ save_usage now name mins gb roaming t
         = Ok (t ++ [{| id := next_id t;
                        row_person_name := name;
                        row_minutes := mins;
                        row_data_gb := gb;
                        row_roaming_required := if roaming then 1 else 0;
                        created_at := now |}])).
Proof.
  unfold save_usage. destruct (fits_int64 mins); simpl.
  - right. split; [reflexivity|]. now destruct roaming.
  - left. now split.
Qed.



(** X13.  Every table built by saves from the empty table satisfies the
    schema's CHECK on each row, has positive rowids that grow strictly
    along the table (so no rowid repeats), and holds only minutes that fit
    a signed 64-bit integer. *)
Theorem saved_table_invariants (t : db) :
  saved t ->
  db_ok t
  /\ ids_above 0 t
  /\ NoDup (map id t)
  /\ Forall (fun r => fits_int64 (row_minutes r) = true) t.
Proof.
  intro Hsaved.
  assert (Hinv : db_ok t /\ ids_above 0 t
                 /\ Forall (fun r => fits_int64 (row_minutes r) = true) t).
  { induction Hsaved as [|now name mins gb roaming t t' _ IH Hs].
    - repeat split; constructor.
    - destruct IH as (Hok & Hids & Hfits).
      split; [exact (save_usage_keeps_check _ _ _ _ _ _ _ Hok Hs)|].
      destruct (save_usage_cases now name mins gb roaming t)
        as [[Hfit Hs']|[Hfit Hs']]; rewrite Hs' in Hs; [discriminate|].
      inversion Hs; subst t'. split.
      + apply ids_above_snoc; [exact Hids | apply next_id_above |].
        intros r0 Hin. simpl. now apply next_id_above.
      + apply Forall_app. split; [exact Hfits|].
        constructor; [exact Hfit|constructor]. }
  destruct Hinv as (Hok & Hids & Hfits).
  split; [exact Hok|]. split; [exact Hids|].
  split; [exact (ids_above_nodup 0 t Hids)|exact Hfits].
Qed.

Lemma three_saves_saved : saved (table_of three_saves).
Proof.
  eapply (saved_more 1120 "Ann" 250 (9 # 2) true);
    [eapply (saved_more 1060 "Bob" 400 12 true);
     [eapply (saved_more 1000 "Ann" 100 (3 # 2) false);
      [apply saved_empty|]|]|];
    vm_compute; reflexivity.
Qed.

Lemma saved_table_invariants_witness :
  NoDup (map id (table_of three_saves)).
Proof.
  apply (saved_table_invariants (table_of three_saves)).
  exact three_saves_saved.
Defined.

(** X14.  A save under one name leaves the lookup under every other name
    as it was. *)
Theorem save_usage_other_name (now : Z) (name other : string) (mins : Z)
  (gb : Q) (roaming : bool) (t t' : db) :
  other <> name ->
  save_usage now name mins gb roaming t = Ok t' ->
  load_usage other t' = load_usage other t.
Proof.
  intros Hne Hs.
  destruct (save_usage_cases now name mins gb roaming t)
    as [[_ Hs']|[_ Hs']]; rewrite Hs' in Hs; [discriminate|].
  inversion Hs; subst t'. unfold load_usage, select_latest.
  rewrite filter_app. cbn [filter row_person_name].
  destruct (String.eqb_spec name other) as [Heq|_]; [congruence|].
  now rewrite app_nil_r.
Qed.

Lemma save_usage_other_name_witness :
  load_usage "Bob" (table_of three_saves) = Some (400, 12%Q, true).
Proof.
  rewrite (save_usage_other_name 1120 "Ann" "Bob" 250 (9 # 2) true
             [{| id := 1; row_person_name := "Ann"; row_minutes := 100;
                 row_data_gb := 3 # 2; row_roaming_required := 0;
                 created_at := 1000 |};
              {| id := 2; row_person_name := "Bob"; row_minutes := 400;
                 row_data_gb := 12; row_roaming_required := 1;
                 created_at := 1060 |}]
             (table_of three_saves)).
  - reflexivity.
  - discriminate.
  - vm_compute. reflexivity.
Defined.

Lemma load_usage_after_later_save_witness :
  load_usage "Ann" (table_of three_saves) = Some (250, 9 # 2, true).
Proof.
  apply (load_usage_after_later_save 1120 "Ann" 250 (9 # 2) true
           [{| id := 1; row_person_name := "Ann"; row_minutes := 100;
               row_data_gb := 3 # 2; row_roaming_required := 0;
               created_at := 1000 |};
            {| id := 2; row_person_name := "Bob"; row_minutes := 400;
               row_data_gb := 12; row_roaming_required := 1;
               created_at := 1060 |}]).
  - vm_compute. reflexivity.
  - intros r [<-|[<-|[]]] _; simpl; lia.
Defined.

(** X16.  A lookup that finds something returns the minutes, data and
    roaming flag of a row stored under exactly the requested name, and no
    row of that name has a later timestamp; a lookup finds nothing exactly
    when no row carries the name. *)
Theorem load_usage_finds (name : string) (t : db) :
  (forall m g b,
      load_usage name t = Some (m, g, b) ->
      exists r,
        In r t /\ row_person_name r = name
        /\ m = row_minutes r /\ g = row_data_gb r
        /\ b = negb (row_roaming_required r =? 0)
        /\ forall r', In r' t -> row_person_name r' = name ->
                      created_at r' <= created_at r)
  /\ (load_usage name t = None <->
      forall r, In r t -> row_person_name r <> name).
Proof.
  split.
  - intros m g b. apply load_usage_exact_name.
  - split; [|apply load_usage_unknown_name].
    intros Hnone r Hin Hname.
    unfold load_usage, select_latest in Hnone.
    destruct (fold_left newest_step _ None) as [b|] eqn:E; [discriminate|].
    assert (Hf : In r (filter (fun r => String.eqb (row_person_name r) name) t)).
    { apply filter_In. split; [exact Hin|]. now apply String.eqb_eq. }
    destruct (filter (fun r => String.eqb (row_person_name r) name) t)
      as [|x l]; [destruct Hf|].
    simpl in E. clear Hf Hnone.
    assert (Hsome : forall (l0 : list row) (s : row),
               fold_left newest_step l0 (Some s) <> None).
    { induction l0 as [|z l0 IHl]; intro s; simpl; [discriminate|].
      destruct (created_at s <? created_at z); apply IHl. }
    exact (Hsome l x E).
Qed.

Lemma load_usage_finds_witness :
  exists r,
    In r (table_of three_saves) /\ row_person_name r = "Ann"
    /\ 250 = row_minutes r.
Proof.
  destruct (load_usage_finds "Ann" (table_of three_saves)) as [Hfound _].
  destruct (Hfound 250 (9 # 2) true) as (r & Hin & Hname & Hm & _).
  - vm_compute. reflexivity.
  - exists r. split; [exact Hin|]. split; [exact Hname|exact Hm].
Defined.

(** ** Statistics, continued *)







(** The report on a table with at least one row, field by field. *)
Lemma show_stats_cons (r : row) (t' : db) :
  exists s,
    show_stats (r :: t') = Ok (Statistics s)
    /\ count s = Z.of_nat (List.length (r :: t'))
    /\ avg_minutes s
       = (Qsum (map (fun x => inject_Z (row_minutes x)) (r :: t'))
          / inject_Z (Z.of_nat (List.length (r :: t'))))%Q
    /\ avg_data_gb s
       = (Qsum (map row_data_gb (r :: t'))
          / inject_Z (Z.of_nat (List.length (r :: t'))))%Q
    /\ min_minutes s = Some (fold_left Z.min (map row_minutes t') (row_minutes r))
    /\ max_minutes s = Some (fold_left Z.max (map row_minutes t') (row_minutes r))
    /\ min_data_gb s = fold_left Qmin_of (map row_data_gb t') (row_data_gb r)
    /\ max_data_gb s = fold_left Qmax_of (map row_data_gb t') (row_data_gb r)
    /\ roaming_pct s
       = (inject_Z (or_else (sql_sum (map row_roaming_required (r :: t'))) 0)
          * 100 / inject_Z (Z.of_nat (List.length (r :: t'))))%Q.
Proof.
  remember (r :: t') as t eqn:Ht.
  assert (Hpos : 0 < Z.of_nat (List.length t))
    by (subst t; cbn [List.length]; lia).
  unfold show_stats.
  assert (Hcount : (sql_count t =? 0) = false).
  { unfold sql_count. apply Z.eqb_neq. lia. }
  rewrite Hcount.
  assert (Htotal : py_max_Z 1 (or_else (Some (sql_count t)) 1)
                   = Z.of_nat (List.length t)).
  { unfold or_else. rewrite Hcount, py_max_Z_max. unfold sql_count. lia. }
  rewrite Htotal. unfold py_div.
  assert (Hnz : Qeq_bool (inject_Z (Z.of_nat (List.length t))) 0 = false).
  { apply not_true_iff_false. intro Heq. apply Qeq_bool_iff in Heq.
    unfold Qeq in Heq. simpl in Heq. lia. }
  rewrite Hnz. cbn [bind]. subst t.
  cbn [map sql_avg sql_extreme format_num bind].
  eexists. split; [reflexivity|].
  cbn [count avg_minutes avg_data_gb min_minutes max_minutes
         min_data_gb max_data_gb roaming_pct].
  rewrite <- !(length_map (fun x => inject_Z (row_minutes x)) (r :: t')) at 1.
  repeat split.
  - cbn [map List.length]. now rewrite length_map.
  - cbn [map List.length]. now rewrite !length_map.
Qed.

(** X17.  [show_stats] returns for every table, without a division by
    zero or a formatting error, and the report is the empty one exactly
    when the table has no rows. *)
Theorem show_stats_returns (t : db) :
  exists report,
    show_stats t = Ok report /\ (report = NoSavedUsage <-> t = []).
Proof.
  destruct t as [|r t'].
  - exists NoSavedUsage. split; [reflexivity|]. tauto.
  - destruct (show_stats_cons r t') as (s & Hs & _).
    exists (Statistics s). split; [exact Hs|].
    split; discriminate.
Qed.





(** X20.  Over a table whose rows satisfy the schema's CHECK, the roaming
    percentage of a report lies between 0 and 100, and it is 0 exactly
    when no row requires roaming. *)
Theorem show_stats_pct_range (t : db) (s : stats) :
  db_ok t ->
  show_stats t = Ok (Statistics s) ->
  (0 <= roaming_pct s)%Q /\ (roaming_pct s <= 100)%Q
  /\ ((roaming_pct s == 0)%Q <-> roaming_rows t = 0%nat).
Proof.
  intros Hok Hshow. destruct t as [|r t']; [discriminate|].
  destruct (show_stats_cons r t')
    as (s' & Hs & _ & _ & _ & _ & _ & _ & _ & Hpct).
  rewrite Hs in Hshow. inversion Hshow; subst s'. clear Hshow Hs.
  set (t := r :: t') in *.
  assert (Hsum : or_else (sql_sum (map row_roaming_required t)) 0
                 = Z.of_nat (roaming_rows t)).
  { rewrite <- (sum_roaming_counts t Hok). unfold t.
    cbn [map sql_sum or_else].
    match goal with
    | |- (if ?c then _ else _) = _ => destruct c eqn:E
    end; [apply Z.eqb_eq in E; now rewrite E | reflexivity]. }
  rewrite Hsum in Hpct.
  assert (Hle : (roaming_rows t <= List.length t)%nat).
  { unfold roaming_rows. apply filter_length_le. }
  assert (Hpos : (0 < inject_Z (Z.of_nat (List.length t)))%Q).
  { change 0%Q with (inject_Z 0). rewrite <- Zlt_Qlt.
    unfold t. cbn [List.length]. lia. }
  assert (Hk0 : (0 <= inject_Z (Z.of_nat (roaming_rows t)))%Q).
  { change 0%Q with (inject_Z 0). rewrite <- Zle_Qle. lia. }
  assert (Hkn : (inject_Z (Z.of_nat (roaming_rows t))
                 <= inject_Z (Z.of_nat (List.length t)))%Q).
  { rewrite <- Zle_Qle. lia. }
  rewrite Hpct. split; [|split].
  - apply Qle_shift_div_l; [exact Hpos|]. lra.
  - apply Qle_shift_div_r; [exact Hpos|]. lra.
  - split.
    + intro Hz.
      assert (Hnum : (inject_Z (Z.of_nat (roaming_rows t)) * 100 == 0)%Q).
      { setoid_replace (inject_Z (Z.of_nat (roaming_rows t)) * 100)%Q
          with (inject_Z (Z.of_nat (roaming_rows t)) * 100
                / inject_Z (Z.of_nat (List.length t))
                * inject_Z (Z.of_nat (List.length t)))%Q
          by (field; lra).
        rewrite Hz. ring. }
      assert (Hk : (inject_Z (Z.of_nat (roaming_rows t)) == inject_Z 0)%Q)
        by (change (inject_Z 0) with 0%Q; lra).
      unfold Qeq in Hk. cbn [Qnum Qden inject_Z] in Hk. lia.
    + intro Hz. rewrite Hz. change (inject_Z (Z.of_nat 0)) with 0%Q.
      field. lra.
Qed.

Lemma show_stats_pct_range_witness :
  match show_stats (table_of three_saves) with
  | Ok (Statistics s) => (0 <= roaming_pct s)%Q /\ (roaming_pct s <= 100)%Q
  | _ => False
  end.
Proof.
  destruct (show_stats (table_of three_saves)) as [[|s]|e] eqn:E;
    [vm_compute in E; discriminate | | vm_compute in E; discriminate].
  destruct (show_stats_pct_range (table_of three_saves) s) as (H0 & H100 & _).
  - vm_compute. repeat constructor.
  - exact E.
  - split; [exact H0|exact H100].
Defined.

(** ** Input helpers *)

Section InputFacts.
Context `{Builtins}.

Lemma input_int_from_spec (prompt : string) (minimum : Z)
  (lines : list string) (out : list printed) :
  match input_int_from prompt minimum lines out with
  | (Done v, c') =>
      minimum <= v
      /\ exists skipped line msgs,
          lines = skipped ++ line :: stdin c'
          /\ int_of_text (strip line) = Some v
          /\ Forall (fun l => forall w, int_of_text (strip l) = Some w ->
                              w < minimum) skipped
          /\ stdout c' = out ++ msgs
          /\ List.length msgs = (2 * List.length skipped + 1)%nat
  | (Failed _, _) => False
  | (EndOfInput, c') =>
      Forall (fun l => forall w, int_of_text (strip l) = Some w ->
                       w < minimum) lines
      /\ stdin c' = []
  end.
Proof.
  revert out. induction lines as [|line rest IH]; intro out.
  - simpl. split; constructor.
  - cbn [input_int_from].
    destruct (int_of_text (strip line)) as [value|] eqn:Eint.
    + destruct (Z.ltb_spec value minimum) as [Hlt|Hge].
      * specialize (IH (out ++ [Prompt prompt; IntTooSmall minimum])).
        destruct (input_int_from prompt minimum rest _) as [[v| |] c'].
        -- destruct IH as (Hv & skipped & l0 & msgs & Hl & Hi & Hs & Ho & Hn).
           split; [exact Hv|].
           exists (line :: skipped), l0,
             ([Prompt prompt; IntTooSmall minimum] ++ msgs).
           split; [now rewrite Hl|]. split; [exact Hi|].
           split; [constructor; [intros w Hw; congruence | exact Hs]|].
           split; [now rewrite Ho, <- app_assoc|].
           rewrite length_app. cbn [List.length]. lia.
        -- exact IH.
        -- destruct IH as [Hall Hnil]. split; [|exact Hnil].
           constructor; [intros w Hw; congruence | exact Hall].
      * split; [exact Hge|].
        exists [], line, [Prompt prompt].
        split; [reflexivity|]. split; [exact Eint|].
        split; [constructor|]. split; reflexivity.
    + specialize (IH (out ++ [Prompt prompt; InvalidNumber])).
      destruct (input_int_from prompt minimum rest _) as [[v| |] c'].
      * destruct IH as (Hv & skipped & l0 & msgs & Hl & Hi & Hs & Ho & Hn).
        split; [exact Hv|].
        exists (line :: skipped), l0, ([Prompt prompt; InvalidNumber] ++ msgs).
        split; [now rewrite Hl|]. split; [exact Hi|].
        split; [constructor; [intros w Hw; congruence | exact Hs]|].
        split; [now rewrite Ho, <- app_assoc|].
        rewrite length_app. cbn [List.length]. lia.
      * exact IH.
      * destruct IH as [Hall Hnil]. split; [|exact Hnil].
        constructor; [intros w Hw; congruence | exact Hall].
Qed.

Lemma input_float_from_spec (prompt : string) (minimum : Q)
  (lines : list string) (out : list printed) :
  match input_float_from prompt minimum lines out with
  | (Done v, c') =>
      (minimum <= v)%Q
      /\ exists skipped line msgs,
          lines = skipped ++ line :: stdin c'
          /\ float_of_text (strip line) = Some v
          /\ Forall (fun l => forall w, float_of_text (strip l) = Some w ->
                              (w < minimum)%Q) skipped
          /\ stdout c' = out ++ msgs
          /\ List.length msgs = (2 * List.length skipped + 1)%nat
  | (Failed _, _) => False
  | (EndOfInput, c') =>
      Forall (fun l => forall w, float_of_text (strip l) = Some w ->
                       (w < minimum)%Q) lines
      /\ stdin c' = []
  end.
Proof.
  revert out. induction lines as [|line rest IH]; intro out.
  - simpl. split; constructor.
  - cbn [input_float_from].
    destruct (float_of_text (strip line)) as [value|] eqn:Efl.
    + destruct (Qltb value minimum) eqn:Elt.
      * apply Qltb_true in Elt.
        specialize (IH (out ++ [Prompt prompt; FloatTooSmall minimum])).
        destruct (input_float_from prompt minimum rest _) as [[v| |] c'].
        -- destruct IH as (Hv & skipped & l0 & msgs & Hl & Hi & Hs & Ho & Hn).
           split; [exact Hv|].
           exists (line :: skipped), l0,
             ([Prompt prompt; FloatTooSmall minimum] ++ msgs).
           split; [now rewrite Hl|]. split; [exact Hi|].
           split; [constructor; [intros w Hw; congruence | exact Hs]|].
           split; [now rewrite Ho, <- app_assoc|].
           rewrite length_app. cbn [List.length]. lia.
        -- exact IH.
        -- destruct IH as [Hall Hnil]. split; [|exact Hnil].
           constructor; [intros w Hw; congruence | exact Hall].
      * apply Qltb_false in Elt. split; [exact Elt|].
        exists [], line, [Prompt prompt].
        split; [reflexivity|]. split; [exact Efl|].
        split; [constructor|]. split; reflexivity.
    + specialize (IH (out ++ [Prompt prompt; InvalidNumber])).
      destruct (input_float_from prompt minimum rest _) as [[v| |] c'].
      * destruct IH as (Hv & skipped & l0 & msgs & Hl & Hi & Hs & Ho & Hn).
        split; [exact Hv|].
        exists (line :: skipped), l0, ([Prompt prompt; InvalidNumber] ++ msgs).
        split; [now rewrite Hl|]. split; [exact Hi|].
        split; [constructor; [intros w Hw; congruence | exact Hs]|].
        split; [now rewrite Ho, <- app_assoc|].
        rewrite length_app. cbn [List.length]. lia.
      * exact IH.
      * destruct IH as [Hall Hnil]. split; [|exact Hnil].
        constructor; [intros w Hw; congruence | exact Hall].
Qed.


End InputFacts.



Lemma input_yes_no_from_spec (prompt : string) (lines : list string)
  (out : list printed) :
  match input_yes_no_from prompt lines out with
  | (Done b, c') =>
      exists skipped line msgs,
        lines = skipped ++ line :: stdin c'
        /\ (if b
            then lower (strip line) = "y" \/ lower (strip line) = "yes"
            else lower (strip line) = "n" \/ lower (strip line) = "no")
        /\ Forall (fun l => ~ In (lower (strip l)) ["y"; "yes"; "n"; "no"])
             skipped
        /\ stdout c' = out ++ msgs
        /\ List.length msgs = (2 * List.length skipped + 1)%nat
  | (Failed _, _) => False
  | (EndOfInput, c') =>
      Forall (fun l => ~ In (lower (strip l)) ["y"; "yes"; "n"; "no"]) lines
      /\ stdin c' = []
  end.
Proof.
  revert out. induction lines as [|line rest IH]; intro out.
  - simpl. split; constructor.
  - cbn [input_yes_no_from].
    destruct (String.eqb_spec (lower (strip line)) "y") as [Hy|Hy];
      [|destruct (String.eqb_spec (lower (strip line)) "yes") as [Hyes|Hyes]];
      cbn [orb].
    + eexists [], line, [_]. split; [reflexivity|].
      split; [now left|]. split; [constructor|]. split; reflexivity.
    + eexists [], line, [_]. split; [reflexivity|].
      split; [now right|]. split; [constructor|]. split; reflexivity.
    + destruct (String.eqb_spec (lower (strip line)) "n") as [Hn|Hn];
        [|destruct (String.eqb_spec (lower (strip line)) "no") as [Hno|Hno]];
        cbn [orb].
      * eexists [], line, [_]. split; [reflexivity|].
        split; [now left|]. split; [constructor|]. split; reflexivity.
      * eexists [], line, [_]. split; [reflexivity|].
        split; [now right|]. split; [constructor|]. split; reflexivity.
      * assert (Hskip : ~ In (lower (strip line)) ["y"; "yes"; "n"; "no"]).
        { simpl. intros [Heq|[Heq|[Heq|[Heq|[]]]]]; congruence. }
        match goal with
        | |- context [input_yes_no_from prompt rest ?o] => specialize (IH o)
        end.
        destruct (input_yes_no_from prompt rest _) as [[b| |] c'].
        -- destruct IH as (skipped & l0 & msgs & Hl & Hb & Hs & Ho & Hlen).
           eexists (line :: skipped), l0, (_ ++ msgs).
           split; [now rewrite Hl|]. split; [exact Hb|].
           split; [constructor; [exact Hskip|exact Hs]|].
           split; [rewrite Ho, <- app_assoc; reflexivity|].
           rewrite length_app. cbn [List.length]. lia.
        -- exact IH.
        -- destruct IH as [Hall Hnil]. split; [|exact Hnil].
           constructor; [exact Hskip|exact Hall].
Qed.



(** ** The menu loop *)

Lemma io_bind_done {A B : Type} (m : io A) (k : A -> io B) (c c' : console)
  (b : B) :
  io_bind m k c = (Done b, c') ->
  exists a c1, m c = (Done a, c1) /\ k a c1 = (Done b, c').
Proof.
  unfold io_bind. destruct (m c) as [[a|e|] c1]; intro Hk;
    [now exists a, c1 | discriminate | discriminate].
Qed.

Lemma print_done (p : printed) (c c' : console) (r : outcome unit) :
  print p c = (r, c') ->
  r = Done tt /\ stdin c' = stdin c /\ stdout c' = stdout c ++ [p].
Proof. unfold print. intro Hp. inversion Hp. now subst. Qed.

Lemma input_done (prompt : string) (c c' : console) (line : string) :
  input prompt c = (Done line, c') ->
  stdin c = line :: stdin c' /\ stdout c' = stdout c ++ [Prompt prompt].
Proof.
  unfold input. destruct (stdin c) as [|l rest]; intro Hi; inversion Hi.
  now subst.
Qed.

Lemma lift_done {A : Type} (r : result A) (c c' : console) (a : A) :
  lift r c = (Done a, c') -> r = Ok a /\ c' = c.
Proof. unfold lift. destruct r; intro Hl; inversion Hl. now subst. Qed.

Ltac io_done H a c E := apply io_bind_done in H as (a & c & E & H).

Ltac print_inv :=
  repeat match goal with
    | E : print _ _ = (Done _, _) |- _ =>
        apply print_done in E as (_ & ? & ?)
    end.

(** Closes a goal about the lengths of the unread input from equations
    between the inputs of the consoles passed through. *)
Ltac len_solve :=
  repeat match goal with
    | E : stdin _ = _ |- _ =>
        apply (f_equal (@List.length string)) in E;
        cbn [List.length] in E
    end;
  cbn [List.length]; lia.

Section MenuFacts.
Context `{Builtins}.
Variable clock : nat -> Z.
Variable plans : dict plan.

Lemma input_int_shrinks (prompt : string) (minimum : Z) (c c' : console)
  (v : Z) :
  input_int prompt minimum c = (Done v, c') ->
  minimum <= v /\ (List.length (stdin c') < List.length (stdin c))%nat.
Proof.
  unfold input_int. intro Hi.
  pose proof (input_int_from_spec prompt minimum (stdin c) (stdout c)) as Hs.
  rewrite Hi in Hs. destruct Hs as (Hv & skipped & line & msgs & Hl & _).
  split; [exact Hv|]. rewrite Hl, length_app. cbn [List.length]. lia.
Qed.

Lemma input_float_shrinks (prompt : string) (minimum : Q) (c c' : console)
  (v : Q) :
  input_float prompt minimum c = (Done v, c') ->
  (minimum <= v)%Q /\ (List.length (stdin c') < List.length (stdin c))%nat.
Proof.
  unfold input_float. intro Hi.
  pose proof (input_float_from_spec prompt minimum (stdin c) (stdout c)) as Hs.
  rewrite Hi in Hs. destruct Hs as (Hv & skipped & line & msgs & Hl & _).
  split; [exact Hv|]. rewrite Hl, length_app. cbn [List.length]. lia.
Qed.

Lemma input_yes_no_shrinks (prompt : string) (c c' : console) (b : bool) :
  input_yes_no prompt c = (Done b, c') ->
  (List.length (stdin c') < List.length (stdin c))%nat.
Proof.
  unfold input_yes_no. intro Hi.
  pose proof (input_yes_no_from_spec prompt (stdin c) (stdout c)) as Hs.
  rewrite Hi in Hs. destruct Hs as (skipped & line & msgs & Hl & _).
  rewrite Hl, length_app. cbn [List.length]. lia.
Qed.

(** What a round that continues has done, by the option chosen. *)
Lemma menu_round_continues (s s' : session) (c c' : console) :
  menu_round clock plans s c = (Done (Some s'), c') ->
  exists line rest,
    stdin c = line :: rest
    /\ (List.length (stdin c') <= List.length rest)%nat
    /\ ((strip line = "1" /\ table s' = table s
         /\ exists u, current_usage s' = Some u /\ usage_ok u)
        \/ (strip line = "5" /\ current_usage s' = current_usage s
            /\ ((current_usage s = None /\ table s' = table s)
                \/ exists u,
                    current_usage s = Some u
                    /\ save_usage (clock (List.length (table s)))
                         (person_name u) (minutes u) (data_gb u)
                         (roaming_required u) (table s) = Ok (table s')))
        \/ (strip line = "6" /\ table s' = table s
            /\ (current_usage s' = current_usage s
                \/ exists name m g b,
                    load_usage name (table s) = Some (m, g, b)
                    /\ current_usage s'
                       = Some {| person_name := name; minutes := m;
                                 data_gb := g; roaming_required := b |}))
        \/ (strip line <> "1" /\ strip line <> "5" /\ strip line <> "6"
            /\ strip line <> "8" /\ s' = s)).
Proof.
  unfold menu_round. intro Hr.
  io_done Hr u0 c0 E0. io_done Hr u1 c1 E1.
  io_done Hr line c2 E2. io_done Hr u3 c3 E3.
  print_inv. apply input_done in E2 as [Hline _].
  exists line, (stdin c2).
  split; [congruence|].
  destruct (String.eqb_spec (strip line) "1") as [K1|K1].
  { io_done Hr typed c4 E4. io_done Hr mins c5 E5. io_done Hr gb c6 E6.
    io_done Hr roaming c7 E7. io_done Hr u8 c8 E8.
    print_inv. inversion Hr; subst s' c'. clear Hr.
    apply input_done in E4 as [Htyped _].
    apply input_int_shrinks in E5 as [Hm Hl5].
    apply input_float_shrinks in E6 as [Hg Hl6].
    apply input_yes_no_shrinks in E7.
    split; [len_solve|].
    left. split; [exact K1|]. split; [reflexivity|].
    eexists. split; [reflexivity|]. split; [exact Hm|exact Hg]. }
  destruct (String.eqb_spec (strip line) "2") as [K2|K2].
  { io_done Hr u4 c4 E4. print_inv. inversion Hr; subst s' c'. clear Hr.
    split; [len_solve|].
    right. right. right. repeat split; congruence. }
  destruct (String.eqb_spec (strip line) "3") as [K3|K3].
  { io_done Hr u4 c4 E4. print_inv. inversion Hr; subst s' c'. clear Hr.
    split; [len_solve|].
    right. right. right. repeat split; congruence. }
  destruct (String.eqb_spec (strip line) "4") as [K4|K4].
  { io_done Hr r4 c4 E4. io_done Hr u5 c5 E5. print_inv.
    inversion Hr; subst s' c'. clear Hr.
    apply lift_done in E4 as [_ ->].
    split; [len_solve|].
    right. right. right. repeat split; congruence. }
  destruct (String.eqb_spec (strip line) "5") as [K5|K5].
  { destruct (current_usage s) as [u|] eqn:Hu.
    - io_done Hr t4 c4 E4. io_done Hr u5 c5 E5. print_inv.
      inversion Hr; subst s' c'. clear Hr.
      apply lift_done in E4 as [Hsave ->].
      split; [len_solve|].
      right. left. split; [exact K5|]. split; [now symmetry|].
      right. exists u. split; [reflexivity|exact Hsave].
    - io_done Hr u4 c4 E4. print_inv. inversion Hr; subst s' c'. clear Hr.
      split; [len_solve|].
      right. left. split; [exact K5|]. split; [exact Hu|].
      left. now split. }
  destruct (String.eqb_spec (strip line) "6") as [K6|K6].
  { io_done Hr typed c4 E4. apply input_done in E4 as [Htyped _].
    destruct (load_usage (strip typed) (table s)) as [[[m g] b]|] eqn:Hload.
    - io_done Hr u5 c5 E5. print_inv. inversion Hr; subst s' c'. clear Hr.
      split; [len_solve|].
      right. right. left. split; [exact K6|]. split; [reflexivity|].
      right. now exists (strip typed), m, g, b.
    - io_done Hr u5 c5 E5. print_inv. inversion Hr; subst s' c'. clear Hr.
      split; [len_solve|].
      right. right. left. split; [exact K6|]. split; [reflexivity|].
      now left. }
  destruct (String.eqb_spec (strip line) "7") as [K7|K7].
  { io_done Hr r4 c4 E4. io_done Hr u5 c5 E5. print_inv.
    inversion Hr; subst s' c'. clear Hr.
    apply lift_done in E4 as [_ ->].
    split; [len_solve|].
    right. right. right. repeat split; congruence. }
  destruct (String.eqb_spec (strip line) "8") as [K8|K8].
  { io_done Hr u4 c4 E4. discriminate Hr. }
  io_done Hr u4 c4 E4. print_inv. inversion Hr; subst s' c'. clear Hr.
  split; [len_solve|].
  right. right. right. repeat split; congruence.
Qed.
End MenuFacts.

Section SessionFacts.
Context `{Builtins}.
Variable clock : nat -> Z.
Variable plans : dict plan.

Lemma main_loop_invariant (P : session -> Prop) :
  (forall s c s' c',
      P s -> menu_round clock plans s c = (Done (Some s'), c') -> P s') ->
  forall fuel s c s' c',
    P s -> main_loop clock plans fuel s c = Some (Done s', c') -> P s'.
Proof.
  intros Hstep fuel. induction fuel as [|fuel IH]; intros s c s' c' HP Hl.
  - discriminate.
  - cbn [main_loop] in Hl.
    destruct (menu_round clock plans s c) as [[[s1|]|e|] c1] eqn:E.
    + exact (IH s1 c1 s' c' (Hstep s c s1 c1 HP E) Hl).
    + inversion Hl; subst. exact HP.
    + discriminate.
    + discriminate.
Qed.

Lemma menu_round_keeps_ok (s s' : session) (c c' : console) :
  session_ok s ->
  menu_round clock plans s c = (Done (Some s'), c') ->
  session_ok s'.
Proof.
  intros [Hcur Htab] Hr.
  apply menu_round_continues in Hr
    as (line & rest & _ & _ & [Hc|[Hc|[Hc|Hc]]]).
  - destruct Hc as (_ & Ht & u & Hu & Hok). split.
    + intros u' Hu'. rewrite Hu in Hu'. inversion Hu'; subst. exact Hok.
    + now rewrite Ht.
  - destruct Hc as (_ & Hu & [[_ Ht]|(u & Hsome & Hsave)]).
    + split; [now rewrite Hu | now rewrite Ht].
    + split; [now rewrite Hu|].
      destruct (save_usage_cases (clock (List.length (table s)))
                  (person_name u) (minutes u) (data_gb u)
                  (roaming_required u) (table s))
        as [[_ Hs]|[_ Hs]]; rewrite Hs in Hsave; inversion Hsave as [Ht].
      apply Forall_app. split; [exact Htab|].
      constructor; [exact (Hcur u Hsome)|constructor].
  - destruct Hc as (_ & Ht & [Hu|(name & m & g & b & Hload & Hu)]).
    + split; [now rewrite Hu | now rewrite Ht].
    + split; [|now rewrite Ht].
      intros u' Hu'. rewrite Hu in Hu'. inversion Hu'; subst u'.
      apply load_usage_exact_name in Hload
        as (r & Hin & _ & -> & -> & _).
      rewrite Forall_forall in Htab. exact (Htab r Hin).
  - destruct Hc as (_ & _ & _ & _ & ->). now split.
Qed.

Lemma menu_round_extends (s s' : session) (c c' : console) :
  menu_round clock plans s c = (Done (Some s'), c') ->
  exists extra,
    table s' = table s ++ extra /\ (List.length extra <= 1)%nat.
Proof.
  intro Hr.
  apply menu_round_continues in Hr
    as (line & rest & _ & _ & [Hc|[Hc|[Hc|Hc]]]).
  - destruct Hc as (_ & -> & _). exists []. split; [now rewrite app_nil_r | simpl; lia].
  - destruct Hc as (_ & _ & [[_ ->]|(u & _ & Hsave)]).
    + exists []. split; [now rewrite app_nil_r | simpl; lia].
    + destruct (save_usage_cases (clock (List.length (table s)))
                  (person_name u) (minutes u) (data_gb u)
                  (roaming_required u) (table s))
        as [[_ Hs]|[_ Hs]]; rewrite Hs in Hsave; inversion Hsave as [Ht].
      eexists [_]. split; [reflexivity|]. simpl. lia.
  - destruct Hc as (_ & -> & _). exists []. split; [now rewrite app_nil_r | simpl; lia].
  - destruct Hc as (_ & _ & _ & _ & ->). exists []. split; [now rewrite app_nil_r | simpl; lia].
Qed.

(** X24.  A menu round that continues has read its choice from the first
    unread line.  Only choice 5 can change the stored table, and it only
    appends at most one row; only choices 1 and 6 can change the current
    profile; every other choice leaves the session as it was. *)
Theorem menu_round_frame (s s' : session) (c c' : console) :
  menu_round clock plans s c = (Done (Some s'), c') ->
  exists line rest,
    stdin c = line :: rest
    /\ (strip line <> "5" -> table s' = table s)
    /\ (strip line <> "1" -> strip line <> "6" ->
        current_usage s' = current_usage s)
    /\ (exists extra,
          table s' = table s ++ extra /\ (List.length extra <= 1)%nat)
    /\ strip line <> "8".
Proof.
  intro Hr. pose proof (menu_round_extends s s' c c' Hr) as Hext.
  apply menu_round_continues in Hr
    as (line & rest & Hline & _ & Hc).
  exists line, rest. split; [exact Hline|].
  destruct Hc as [Hc|[Hc|[Hc|Hc]]].
  - destruct Hc as (K & Ht & _). rewrite K.
    split; [intros _; exact Ht|]. split; [congruence|].
    split; [exact Hext|discriminate].
  - destruct Hc as (K & Hu & _). rewrite K.
    split; [congruence|]. split; [intros _ _; exact Hu|].
    split; [exact Hext|discriminate].
  - destruct Hc as (K & Ht & _). rewrite K.
    split; [intros _; exact Ht|]. split; [congruence|].
    split; [exact Hext|discriminate].
  - destruct Hc as (K1 & K5 & K6 & K8 & ->).
    split; [reflexivity|]. split; [reflexivity|].
    split; [exact Hext|exact K8].
Qed.

(** With one round of fuel more than there are unread lines the loop
    returns a result. *)
Lemma main_loop_ends (fuel : nat) (s : session) (c : console) :
  (List.length (stdin c) < fuel)%nat ->
  exists r c', main_loop clock plans fuel s c = Some (r, c').
Proof.
  revert s c. induction fuel as [|fuel IH]; intros s c Hfuel; [lia|].
  cbn [main_loop].
  destruct (menu_round clock plans s c) as [[[s1|]|e|] c1] eqn:E.
  - apply IH.
    apply menu_round_continues in E as (line & rest & Hline & Hlen & _).
    rewrite Hline in Hfuel. cbn [List.length] in Hfuel. lia.
  - now eexists _, _.
  - now eexists _, _.
  - now eexists _, _.
Qed.

Lemma main_loop_keeps_ok (fuel : nat) (s s' : session)
  (c c' : console) :
  session_ok s ->
  main_loop clock plans fuel s c = Some (Done s', c') ->
  session_ok s'.
Proof.
  apply (main_loop_invariant session_ok).
  intros s0 c0 s1 c1. apply menu_round_keeps_ok.
Qed.

Lemma main_loop_extends (fuel : nat) (s s' : session)
  (c c' : console) :
  main_loop clock plans fuel s c = Some (Done s', c') ->
  exists extra, table s' = table s ++ extra.
Proof.
  intro Hl.
  apply (main_loop_invariant
           (fun s1 => exists extra, table s1 = table s ++ extra))
    with (fuel := fuel) (s := s) (c := c) (c' := c'); [| |exact Hl].
  - intros s0 c0 s1 c1 [extra0 Hext0] Hr.
    apply menu_round_extends in Hr as (extra1 & Hext1 & _).
    exists (extra0 ++ extra1). now rewrite Hext1, Hext0, app_assoc.
  - exists []. now rewrite app_nil_r.
Qed.

End SessionFacts.

Lemma menu_round_frame_witness :
  match menu_round (H := decimal_builtins) tick sample_catalog start_session
          (fresh_console ["7"; "8"]) with
  | (Done (Some s'), _) =>
      table s' = table start_session
      /\ current_usage s' = current_usage start_session
  | _ => False
  end.
Proof.
  destruct (menu_round (H := decimal_builtins) tick sample_catalog
              start_session (fresh_console ["7"; "8"]))
    as [[[s'|]|e|] c'] eqn:E; try (vm_compute in E; discriminate).
  destruct (menu_round_frame (H := decimal_builtins) tick sample_catalog
              start_session s' (fresh_console ["7"; "8"]) c' E)
    as (line & rest & Hline & Htable & Husage & _).
  inversion Hline; subst line rest. split.
  - apply Htable. vm_compute. discriminate.
  - apply Husage; vm_compute; discriminate.
Defined.

Section MainFacts.
Context `{Builtins}.
Variable clock : nat -> Z.

(** X25.  Choice 8, and no other, ends the loop: a round breaks out
    exactly when the first unread line, trimmed, is "8", and then it has
    read that line only and printed the profile, the menu, the prompt, a
    blank line and the farewell. *)
Theorem menu_round_exit (plans : dict plan) (s : session) (c : console) :
  (forall c',
      menu_round clock plans s c = (Done None, c') ->
      exists line, stdin c = line :: stdin c' /\ strip line = "8")
  /\ (forall line rest,
        stdin c = line :: rest -> strip line = "8" ->
        menu_round clock plans s c
        = (Done None,
           {| stdin := rest;
              stdout := stdout c
                        ++ [ShowUsage (current_usage s); ShowMenu;
                            Prompt "Choose an option (1-8): "; BlankLine;
                            Goodbye] |})).
Proof.
  split.
  - intros c' Hr. unfold menu_round in Hr.
    io_done Hr u0 c0 E0. io_done Hr u1 c1 E1.
    io_done Hr line c2 E2. io_done Hr u3 c3 E3.
    print_inv. apply input_done in E2 as [Hline _].
    exists line.
    destruct (String.eqb_spec (strip line) "1") as [K1|K1].
    { io_done Hr typed c4 E4. io_done Hr mins c5 E5. io_done Hr gb c6 E6.
      io_done Hr roaming c7 E7. io_done Hr u8 c8 E8. discriminate Hr. }
    destruct (String.eqb_spec (strip line) "2") as [K2|K2].
    { io_done Hr u4 c4 E4. discriminate Hr. }
    destruct (String.eqb_spec (strip line) "3") as [K3|K3].
    { io_done Hr u4 c4 E4. discriminate Hr. }
    destruct (String.eqb_spec (strip line) "4") as [K4|K4].
    { io_done Hr r4 c4 E4. io_done Hr u5 c5 E5. discriminate Hr. }
    destruct (String.eqb_spec (strip line) "5") as [K5|K5].
    { destruct (current_usage s) as [u|].
      - io_done Hr t4 c4 E4. io_done Hr u5 c5 E5. discriminate Hr.
      - io_done Hr u4 c4 E4. discriminate Hr. }
    destruct (String.eqb_spec (strip line) "6") as [K6|K6].
    { io_done Hr typed c4 E4.
      destruct (load_usage (strip typed) (table s)) as [[[m g] b]|].
      - io_done Hr u5 c5 E5. discriminate Hr.
      - io_done Hr u5 c5 E5. discriminate Hr. }
    destruct (String.eqb_spec (strip line) "7") as [K7|K7].
    { io_done Hr r4 c4 E4. io_done Hr u5 c5 E5. discriminate Hr. }
    destruct (String.eqb_spec (strip line) "8") as [K8|K8].
    { io_done Hr u4 c4 E4. print_inv. inversion Hr; subst c'.
      split; [congruence|exact K8]. }
    io_done Hr u4 c4 E4. discriminate Hr.
  - intros line rest Hline K8. destruct c as [lines out].
    cbn [stdin stdout] in *. subst lines.
    unfold menu_round, io_bind, print, input, say, io_ret.
    cbn [stdin stdout]. rewrite K8. cbn [String.eqb Ascii.eqb Bool.eqb].
    cbn [stdin stdout]. repeat rewrite <- app_assoc. reflexivity.
Qed.

(** X26.  [main] on a finite input always ends: by the exit choice, by
    the end of the input, or by an exception. *)
Theorem main_returns (src : source) (file : option db) (c : console) :
  exists r c', main clock src file c = Some (r, c').
Proof.
  unfold main. destruct (load_plans "plans.json" src) as [[plans out]|e].
  - apply main_loop_ends. cbn [say stdin]. lia.
  - now eexists _, _.
Qed.

(** X27.  When the rows found in the database file have no negative
    minutes or data, a session that ends by the exit choice leaves a
    profile, if any, and a table without negative minutes or data,
    whatever was typed. *)
Theorem main_keeps_usage_nonnegative (src : source) (file : option db)
  (c c' : console) (s' : session) :
  rows_nonnegative (init_db file) ->
  main clock src file c = Some (Done s', c') ->
  session_ok s'.
Proof.
  intros Hrows Hmain. unfold main in Hmain.
  destruct (load_plans "plans.json" src) as [[plans out]|e]; [|discriminate].
  eapply main_loop_keeps_ok; [|exact Hmain].
  split; [intros u Hu; discriminate | exact Hrows].
Qed.

(** X28.  A session never removes or changes a stored row: when it ends
    by the exit choice the table is the table found in the database file
    followed by the rows saved during the session. *)
Theorem main_appends_only (src : source) (file : option db)
  (c c' : console) (s' : session) :
  main clock src file c = Some (Done s', c') ->
  exists extra, table s' = init_db file ++ extra.
Proof.
  intro Hmain. unfold main in Hmain.
  destruct (load_plans "plans.json" src) as [[plans out]|e]; [|discriminate].
  apply main_loop_extends in Hmain. exact Hmain.
Qed.
End MainFacts.

Lemma menu_round_exit_witness :
  menu_round (H := decimal_builtins) tick sample_catalog start_session
    (fresh_console [" 8 "; "1"])
  = (Done None,
     {| stdin := ["1"];
        stdout := [ShowUsage (Some home_user); ShowMenu;
                   Prompt "Choose an option (1-8): "; BlankLine; Goodbye] |}).
Proof.
  apply (proj2 (menu_round_exit (H := decimal_builtins) tick sample_catalog
                  start_session (fresh_console [" 8 "; "1"])) " 8 " ["1"]).
  - reflexivity.
  - reflexivity.
Defined.

Lemma main_keeps_usage_nonnegative_witness :
  exists s' c',
    main (H := decimal_builtins) tick (Document mixed_doc) None
      (fresh_console script) = Some (Done s', c')
    /\ session_ok s'.
Proof.
  eexists. eexists. split; [vm_compute; reflexivity|].
  eapply (main_keeps_usage_nonnegative (H := decimal_builtins) tick
            (Document mixed_doc) None (fresh_console script)).
  - constructor.
  - vm_compute. reflexivity.
Defined.

Lemma main_appends_only_witness :
  exists s' extra,
    table s' = table_of three_saves ++ extra
    /\ List.length (table s') = 4%nat.
Proof.
  edestruct (main_appends_only (H := decimal_builtins) tick
               (Document mixed_doc) (Some (table_of three_saves))
               (fresh_console script)) as [extra Hextra].
  - vm_compute. reflexivity.
  - eexists. exists extra. split; [exact Hextra|reflexivity].
Defined.
